(** * Arming, disarming and failsafe of the ROSflight firmware

    A shallow embedding of [src/src/mode.cpp] (class [Mode] of namespace
    [rosflight_firmware]) and the properties of its arming gate, failsafe
    detector and per-cycle state update.

    The member functions become functions on a record [Mode] holding the
    member variables, the function-local static counter of
    [check_failsafe], and the list of calls made on the board and on the
    sensors.  What the collaborators reached through [RF_] answer during
    one call is a record [ROSflight]. *)

From Stdlib Require Import ZArith List Bool Lia.
From Stdlib Require Import Floats.SpecFloat.
Import ListNotations.

Local Open Scope Z_scope.

(** ** Machine arithmetic *)

(** [uint32_t] and [uint8_t] arithmetic wraps around. *)
Definition uint32 (z : Z) : Z := z mod 2 ^ 32.
Definition uint8 (z : Z) : Z := z mod 2 ^ 8.

(** [int8_t]: the value that an [int] takes when stored back into the
    loop counter of [check_failsafe]. *)
Definition int8 (z : Z) : Z := (z + 128) mod 256 - 128.

(** ** Single precision floats

    [float] is IEEE 754 binary32: 24 bits of precision, exponents below
    128, operations rounded to nearest even. *)
Module F32.

Definition prec : Z := 24.
Definition emax : Z := 128.

Definition t := spec_float.

(** The float with a given bit pattern. *)
Definition of_bits (w : Z) : t :=
  let sign := Z.testbit w 31 in
  let ebits := Z.land (Z.shiftr w 23) 255 in
  let mbits := Z.land w (2 ^ 23 - 1) in
  if ebits =? 0 then
    match mbits with
    | Zpos p => S754_finite sign p (-149)
    | _ => S754_zero sign
    end
  else if ebits =? 255 then
    if mbits =? 0 then S754_infinity sign else S754_nan
  else
    match mbits + 2 ^ 23 with
    | Zpos p => S754_finite sign p (ebits - 150)
    | _ => S754_nan
    end.

Definition sub (x y : t) : t := SFsub prec emax x y.
Definition opp (x : t) : t := SFopp x.
Definition ltb (x y : t) : bool := SFltb x y.
Definition gtb (x y : t) : bool := SFltb y x.

(** The literals [0.0f] and [1.0f], and the floats nearest to 0.1, 0.9
    and 0.95. *)
Definition zero : t := of_bits 0x00000000.
Definition one : t := of_bits 0x3F800000.
Definition c0_1 : t := of_bits 0x3DCCCCCD.
Definition c0_9 : t := of_bits 0x3F666666.
Definition c0_95 : t := of_bits 0x3F733333.

End F32.

(** ** The collaborators *)

Inductive param_id : Set :=
| PARAM_CALIBRATE_GYRO_ON_ARM
| PARAM_RC_NUM_CHANNELS
| PARAM_ARM_THRESHOLD.

Inductive rc_stick_t : Set := RC_STICK_Z | RC_STICK_F.

Inductive rc_switch_t : Set := RC_SWITCH_ARM.

(** What [RF_->params_], [RF_->sensors_], [RF_->board_] and [RF_->rc_]
    answer during one call of a member function of [Mode]. *)
Record ROSflight : Type := mkROSflight {
  get_param_int : param_id -> Z;
  get_param_float : param_id -> F32.t;
  gyro_calibration_complete : bool;
  clock_millis : Z;
  pwm_lost : bool;
  pwm_read : Z -> Z;
  rc_switch_mapped : rc_switch_t -> bool;
  rc_switch : rc_switch_t -> bool;
  rc_stick : rc_stick_t -> F32.t
}.

(** The calls that [Mode] makes on the board and on the sensors. *)
Inductive call : Set :=
| led1_on
| led1_off
| led1_toggle
| start_gyro_calibration.

Definition call_eq_dec (a b : call) : {a = b} + {a <> b}.
Proof. decide equality. Defined.

(** ** The state of the module *)

(** Modelled from the spec: the declarations of [mode.h] are not among the
    sources.  The error code is the fault set of the spec written as a
    word of flags, one per named fault; [ERROR_NONE] is the empty set,
    [set_error_code] adds the flags of its argument and [clear_error_code]
    removes them. *)
Definition ERROR_NONE : Z := 0.

Record Mode : Type := mkMode {
  _armed : bool;
  _error_code : Z;
  _failsafe_active : bool;
  started_gyro_calibration : bool;
  prev_time_ms : Z;
  time_sticks_have_been_in_arming_position_ms : Z;
  (** [static uint8_t count] of [check_failsafe] *)
  count : Z;
  (** the calls made so far, the latest first *)
  calls : list call
}.

Definition with_armed (b : bool) (m : Mode) : Mode :=
  mkMode b (_error_code m) (_failsafe_active m) (started_gyro_calibration m)
    (prev_time_ms m) (time_sticks_have_been_in_arming_position_ms m)
    (count m) (calls m).

Definition with_error_code (c : Z) (m : Mode) : Mode :=
  mkMode (_armed m) c (_failsafe_active m) (started_gyro_calibration m)
    (prev_time_ms m) (time_sticks_have_been_in_arming_position_ms m)
    (count m) (calls m).

Definition with_failsafe_active (b : bool) (m : Mode) : Mode :=
  mkMode (_armed m) (_error_code m) b (started_gyro_calibration m)
    (prev_time_ms m) (time_sticks_have_been_in_arming_position_ms m)
    (count m) (calls m).

Definition with_started_gyro_calibration (b : bool) (m : Mode) : Mode :=
  mkMode (_armed m) (_error_code m) (_failsafe_active m) b
    (prev_time_ms m) (time_sticks_have_been_in_arming_position_ms m)
    (count m) (calls m).

Definition with_prev_time_ms (t : Z) (m : Mode) : Mode :=
  mkMode (_armed m) (_error_code m) (_failsafe_active m)
    (started_gyro_calibration m) t
    (time_sticks_have_been_in_arming_position_ms m) (count m) (calls m).

Definition with_time_sticks (t : Z) (m : Mode) : Mode :=
  mkMode (_armed m) (_error_code m) (_failsafe_active m)
    (started_gyro_calibration m) (prev_time_ms m) t (count m) (calls m).

Definition with_count (c : Z) (m : Mode) : Mode :=
  mkMode (_armed m) (_error_code m) (_failsafe_active m)
    (started_gyro_calibration m) (prev_time_ms m)
    (time_sticks_have_been_in_arming_position_ms m) c (calls m).

(** A call on the board or on the sensors is recorded. *)
Definition do_call (c : call) (m : Mode) : Mode :=
  mkMode (_armed m) (_error_code m) (_failsafe_active m)
    (started_gyro_calibration m) (prev_time_ms m)
    (time_sticks_have_been_in_arming_position_ms m) (count m) (c :: calls m).

(** Modelled from the spec: [set_error_code] of [mode.h], which is not
    among the sources; it adds a named fault to the fault set. *)
Definition set_error_code (code : Z) (m : Mode) : Mode :=
  with_error_code (Z.lor (_error_code m) code) m.

(** Modelled from the spec: [clear_error_code] of [mode.h], which is not
    among the sources; it removes a named fault from the fault set. *)
Definition clear_error_code (code : Z) (m : Mode) : Mode :=
  with_error_code (Z.land (_error_code m) (Z.lnot code)) m.

(** All the flags of [code] are raised in [m], and none of them is. *)
Definition error_is_set (code : Z) (m : Mode) : Prop :=
  Z.land (_error_code m) code = code.


(** ** [Mode::Mode] and [Mode::init] *)

Definition Mode_new : Mode :=
  mkMode false ERROR_NONE false false 0 0 0 [].

Definition init (m : Mode) : Mode :=
  with_started_gyro_calibration false
    (with_failsafe_active false
       (with_error_code ERROR_NONE (with_armed false m))).

(** ** [Mode::arm] and [Mode::disarm] *)

Definition arm (rf : ROSflight) (m : Mode) : bool * Mode :=
  if negb (_error_code m =? ERROR_NONE) then
    (false, m)
  else if negb (get_param_int rf PARAM_CALIBRATE_GYRO_ON_ARM =? 0) then
    if negb (started_gyro_calibration m) && negb (_armed m) then
      (false,
       with_started_gyro_calibration true (do_call start_gyro_calibration m))
    else if gyro_calibration_complete rf then
      (true,
       do_call led1_on
         (with_armed true (with_started_gyro_calibration false m)))
    else
      (false, m)
  else
    if negb (_armed m) then
      (true, do_call led1_on (with_armed true m))
    else
      (false, m).

Definition disarm (m : Mode) : Mode :=
  do_call led1_off (with_armed false m).

(** [arm] called once for each element of [rfs], in order: the values
    returned and the final state. *)
Fixpoint arm_each (rfs : list ROSflight) (m : Mode) : list bool * Mode :=
  match rfs with
  | [] => ([], m)
  | rf :: rfs' =>
      let (r, m1) := arm rf m in
      let (rs, m2) := arm_each rfs' m1 in
      (r :: rs, m2)
  end.

(** ** The loop over the RC channels *)

(** The test of the loop body: an invalid RC command on channel [i]. *)
Definition pwm_invalid (rf : ROSflight) (i : Z) : bool :=
  (pwm_read rf i <? 900) || (pwm_read rf i >? 2100).

(** [for (int8_t i = 0; i < n; i++)] with [n] the parameter
    [PARAM_RC_NUM_CHANNELS]: the counter is an [int8_t], compared as an
    [int] with the bound and stored back after the increment.  [fuel]
    bounds the number of times the condition is evaluated; [None] means
    that the loop has not been left. *)
Fixpoint rc_channels_loop (fuel : nat) (rf : ROSflight) (i : Z)
    (failsafe : bool) : option bool :=
  match fuel with
  | O => None
  | S fuel' =>
      if i <? get_param_int rf PARAM_RC_NUM_CHANNELS then
        rc_channels_loop fuel' rf (int8 (i + 1))
          (if pwm_invalid rf i then true else failsafe)
      else
        Some failsafe
  end.

(** After 256 increments the counter has taken every value of its type
    and is back at its first value: a loop that has not been left by then
    never is (see [rc_channels_loop_diverges]). *)
Definition rc_channels_fuel : nat := 257.

(** ** The stick gestures of [update_state] *)

(** Left stick down and to the right. *)
Definition sticks_in_arming_position (rf : ROSflight) : bool :=
  F32.ltb (rc_stick rf RC_STICK_F) (get_param_float rf PARAM_ARM_THRESHOLD)
  && F32.gtb (rc_stick rf RC_STICK_Z)
       (F32.sub F32.one (get_param_float rf PARAM_ARM_THRESHOLD)).

(** Left stick down and to the left. *)
Definition sticks_in_disarming_position (rf : ROSflight) : bool :=
  F32.ltb (rc_stick rf RC_STICK_F) (get_param_float rf PARAM_ARM_THRESHOLD)
  && F32.ltb (rc_stick rf RC_STICK_Z)
       (F32.opp (F32.sub F32.one (get_param_float rf PARAM_ARM_THRESHOLD))).

(** The gesture that [update_state] looks for in state [m]. *)
Definition gesture_held (rf : ROSflight) (m : Mode) : bool :=
  if _armed m then sticks_in_disarming_position rf
  else sticks_in_arming_position rf.

(** The number of times the LED has been toggled. *)
Definition toggles (m : Mode) : nat := count_occ call_eq_dec (calls m) led1_toggle.

(** The number of requests to start a gyro calibration. *)
Definition calibration_requests (m : Mode) : nat :=
  count_occ call_eq_dec (calls m) start_gyro_calibration.

(** ** Concrete collaborators and states for the examples *)

Definition params_int (calibrate channels : Z) (p : param_id) : Z :=
  match p with
  | PARAM_CALIBRATE_GYRO_ON_ARM => calibrate
  | PARAM_RC_NUM_CHANNELS => channels
  | PARAM_ARM_THRESHOLD => 0
  end.

Definition params_float (threshold : F32.t) (p : param_id) : F32.t :=
  match p with
  | PARAM_ARM_THRESHOLD => threshold
  | _ => F32.zero
  end.

Definition sticks (z f : F32.t) (s : rc_stick_t) : F32.t :=
  match s with
  | RC_STICK_Z => z
  | RC_STICK_F => f
  end.

(** Eight channels, arming threshold 0.1, no arming switch, sticks
    centred with the throttle down, every channel at 1500 microseconds,
    the link present. *)
Definition rf_idle (calibrate : Z) (complete : bool) (now : Z) : ROSflight :=
  mkROSflight (params_int calibrate 8) (params_float F32.c0_1) complete now
    false (fun _ => 1500) (fun _ => false) (fun _ => false)
    (sticks F32.zero F32.zero).

(** The same with the link lost. *)
Definition rf_link_lost (now : Z) : ROSflight :=
  mkROSflight (params_int 0 8) (params_float F32.c0_1) false now
    true (fun _ => 1500) (fun _ => false) (fun _ => false)
    (sticks F32.zero F32.zero).

(** The same with the link present and channel 3 at 2200 microseconds. *)
Definition rf_bad_channel (now : Z) : ROSflight :=
  mkROSflight (params_int 0 8) (params_float F32.c0_1) false now
    false (fun i => if i =? 3 then 2200 else 1500)
    (fun _ => false) (fun _ => false) (sticks F32.zero F32.zero).

(** Throttle at 0.0 and yaw at 0.95: the arming gesture. *)
Definition rf_arm_gesture (now : Z) : ROSflight :=
  mkROSflight (params_int 0 8) (params_float F32.c0_1) false now
    false (fun _ => 1500) (fun _ => false) (fun _ => false)
    (sticks F32.c0_95 F32.zero).

(** A flag for [ERROR_RC_LOST] in the examples. *)
Definition sample_ERROR_RC_LOST : Z := 0x0004.

(** Disarmed while a calibration is pending and the sticks have been held
    for 300 ms. *)
Definition mode_cal_pending : Mode :=
  mkMode false ERROR_NONE false true 1000 300 0 [start_gyro_calibration].

(** Disarmed, no fault, fresh counters, last processed at 1000 ms. *)
Definition mode_fresh : Mode :=
  mkMode false ERROR_NONE false false 1000 0 0 [].

(** Armed, no fault. *)
Definition mode_armed : Mode :=
  mkMode true ERROR_NONE false false 1000 0 0 [led1_on].

(** Disarmed with a fault. *)
Definition mode_fault : Mode :=
  mkMode false sample_ERROR_RC_LOST true false 1000 0 7 [].

Section ModeFunctions.

(** The flag of the fault that [check_failsafe] owns; its value is
    declared in [mode.h]. *)
Variable ERROR_RC_LOST : Z.

(** ** [Mode::check_failsafe] *)

(** The branch [if (failsafe)]: blink the LED, set the failsafe bit. *)
Definition failsafe_on (m1 : Mode) : Mode :=
  let m2 :=
    if count m1 >? 25 then with_count 0 (do_call led1_toggle m1)
    else m1 in
  let m3 := with_count (uint8 (count m2 + 1)) m2 in
  with_failsafe_active true m3.

(** Its [else] branch: clear the failsafe bit and the RC lost error,
    show the armed state on the LED. *)
Definition failsafe_off (m1 : Mode) : Mode :=
  let m2 := with_failsafe_active false m1 in
  let m3 := clear_error_code ERROR_RC_LOST m2 in
  do_call (if _armed m3 then led1_on else led1_off) m3.

(** [None] when the loop over the channels is not left. *)
Definition check_failsafe (rf : ROSflight) (m : Mode) : option (bool * Mode) :=
  let scanned :=
    if pwm_lost rf then
      Some (true, set_error_code ERROR_RC_LOST m)
    else
      match rc_channels_loop rc_channels_fuel rf 0 false with
      | Some failsafe => Some (failsafe, m)
      | None => None
      end
  in
  match scanned with
  | None => None
  | Some (true, m1) => Some (true, failsafe_on m1)
  | Some (false, m1) => Some (false, failsafe_off m1)
  end.

(** ** [Mode::update_state] *)
Definition update_state (rf : ROSflight) (m : Mode) : option (bool * Mode) :=
  let now_ms := clock_millis rf in
  let dt := uint32 (now_ms - prev_time_ms m) in
  if dt <? 20 then
    Some (false, m)
  else
    let m0 := with_prev_time_ms now_ms m in
    match check_failsafe rf m0 with
    | None => None
    | Some (true, m1) => Some (true, m1)
    | Some (false, m1) =>
        if negb (rc_switch_mapped rf RC_SWITCH_ARM) then
          if negb (_armed m1) then
            let m2 :=
              if sticks_in_arming_position rf then
                with_time_sticks
                  (uint32 (time_sticks_have_been_in_arming_position_ms m1 + dt)) m1
              else
                with_time_sticks 0 m1 in
            if time_sticks_have_been_in_arming_position_ms m2 >? 500 then
              let (armed_now, m3) := arm rf m2 in
              Some (true, if armed_now then with_time_sticks 0 m3 else m3)
            else
              Some (true, m2)
          else
            let m2 :=
              if sticks_in_disarming_position rf then
                with_time_sticks
                  (uint32 (time_sticks_have_been_in_arming_position_ms m1 + dt)) m1
              else
                with_time_sticks 0 m1 in
            if time_sticks_have_been_in_arming_position_ms m2 >? 500 then
              Some (true, with_time_sticks 0 (disarm m2))
            else
              Some (true, m2)
        else
          if rc_switch rf RC_SWITCH_ARM then
            if negb (_armed m1) then Some (true, snd (arm rf m1))
            else Some (true, m1)
          else
            Some (true, disarm m1)
    end.

(** [check_failsafe] called once for each element of [rfs], in order. *)
Fixpoint check_failsafe_each (rfs : list ROSflight) (m : Mode) : option Mode :=
  match rfs with
  | [] => Some m
  | rf :: rfs' =>
      match check_failsafe rf m with
      | Some (_, m1) => check_failsafe_each rfs' m1
      | None => None
      end
  end.

(** [update_state] called with the collaborators [rfs 1], ..., [rfs n]. *)
Fixpoint update_state_upto (rfs : nat -> ROSflight) (n : nat) (m : Mode)
    : option Mode :=
  match n with
  | O => Some m
  | S n' =>
      match update_state_upto rfs n' m with
      | Some m1 =>
          match update_state (rfs n) m1 with
          | Some (_, m2) => Some m2
          | None => None
          end
      | None => None
      end
  end.

(** ** The conditions of the statements *)

(** The pulse width of channel [i] is outside of [900, 2100]. *)
Definition pulse_out_of_range (rf : ROSflight) (i : Z) : Prop :=
  pwm_read rf i < 900 \/ 2100 < pwm_read rf i.

(** The number of channels is one that the [int8_t] counter of the loop
    reaches. *)
Definition channels_reachable (rf : ROSflight) : Prop :=
  get_param_int rf PARAM_RC_NUM_CHANNELS <= 127.

(** The link is present and some configured channel is out of range. *)
Definition channel_failsafe (rf : ROSflight) : Prop :=
  pwm_lost rf = false
  /\ channels_reachable rf
  /\ exists i, 0 <= i < get_param_int rf PARAM_RC_NUM_CHANNELS
               /\ pulse_out_of_range rf i.

(** The link is present and every configured channel is in range. *)
Definition rc_valid (rf : ROSflight) : Prop :=
  pwm_lost rf = false
  /\ channels_reachable rf
  /\ forall i, 0 <= i < get_param_int rf PARAM_RC_NUM_CHANNELS ->
               900 <= pwm_read rf i <= 2100.

(** An input on which [check_failsafe] evaluates failsafe true. *)
Definition failsafe_input (rf : ROSflight) : Prop :=
  pwm_lost rf = true \/ channel_failsafe rf.

(** The value of the blink counter after [p] failsafe cycles from a fresh
    counter. *)
Definition blink_count (p : nat) : Z :=
  match p with
  | O => 0
  | S q => Z.of_nat (q mod 26) + 1
  end.

(** Gesture arming as in scenario C: the clock advances by 20 ms at each
    call from [t0], the link is valid, no arming switch is mapped, no
    calibration on arm, threshold 0.1, throttle 0.0 and yaw 0.95. *)
Definition gesture_arming_input (t0 : Z) (rfs : nat -> ROSflight) : Prop :=
  forall k : nat,
    clock_millis (rfs k) = uint32 (t0 + 20 * Z.of_nat k)
    /\ rc_valid (rfs k)
    /\ rc_switch_mapped (rfs k) RC_SWITCH_ARM = false
    /\ get_param_int (rfs k) PARAM_CALIBRATE_GYRO_ON_ARM = 0
    /\ get_param_float (rfs k) PARAM_ARM_THRESHOLD = F32.c0_1
    /\ rc_stick (rfs k) RC_STICK_F = F32.zero
    /\ rc_stick (rfs k) RC_STICK_Z = F32.c0_95.

(** The state after [n] epochs of scenario C: every epoch was processed,
    the module is armed from epoch 26 on, and until then the hold timer
    has accumulated 20 ms per epoch. *)
Definition gesture_arming_state (t0 : Z) (n : nat) (m : Mode) : Prop :=
  uint32 (prev_time_ms m) = uint32 (t0 + 20 * Z.of_nat n)
  /\ _error_code m = ERROR_NONE
  /\ _armed m = (26 <=? n)%nat
  /\ time_sticks_have_been_in_arming_position_ms m
     = if (n <? 26)%nat then 20 * Z.of_nat n else 0.

(** ** Definitions for the further properties *)

(** The flags of the error code other than [ERROR_RC_LOST]. *)
Definition other_faults (m : Mode) : Z :=
  Z.land (_error_code m) (Z.lnot ERROR_RC_LOST).

(** The LED after the calls [cs] (the latest first), from the state
    [led]: [led1_on] and [led1_off] set it, [led1_toggle] inverts it. *)
Fixpoint led1_after (led : bool) (cs : list call) : bool :=
  match cs with
  | [] => led
  | led1_on :: _ => true
  | led1_off :: _ => false
  | led1_toggle :: cs' => negb (led1_after led cs')
  | start_gyro_calibration :: cs' => led1_after led cs'
  end.

(** [update_state] called once for each element of [rfs], in order: the
    values returned and the final state. *)
Fixpoint update_state_each (rfs : list ROSflight) (m : Mode)
    : option (list bool * Mode) :=
  match rfs with
  | [] => Some ([], m)
  | rf :: rfs' =>
      match update_state rf m with
      | Some (r, m1) =>
          match update_state_each rfs' m1 with
          | Some (rs, m2) => Some (r :: rs, m2)
          | None => None
          end
      | None => None
      end
  end.

(** The arming switch mapped and at [on], the link valid. *)
Definition rf_switch (on : bool) (calibrate : Z) (now : Z) : ROSflight :=
  mkROSflight (params_int calibrate 8) (params_float F32.c0_1) false now
    false (fun _ => 1500) (fun _ => true) (fun _ => on)
    (sticks F32.zero F32.zero).

(** The arming switch mapped and off, the link lost. *)
Definition rf_switch_off_link_lost (now : Z) : ROSflight :=
  mkROSflight (params_int 0 8) (params_float F32.c0_1) false now
    true (fun _ => 1500) (fun _ => true) (fun _ => false)
    (sticks F32.zero F32.zero).

(** Throttle at 0.0 and yaw at -0.95: the disarming gesture. *)
Definition rf_disarm_gesture (now : Z) : ROSflight :=
  mkROSflight (params_int 0 8) (params_float F32.c0_1) false now
    false (fun _ => 1500) (fun _ => false) (fun _ => false)
    (sticks (F32.of_bits 0xBF733333) F32.zero).

(** The yaw stick reads NaN. *)
Definition rf_nan_stick (now : Z) : ROSflight :=
  mkROSflight (params_int 0 8) (params_float F32.c0_1) false now
    false (fun _ => 1500) (fun _ => false) (fun _ => false)
    (sticks S754_nan F32.zero).

(** 128 channels configured, the link present. *)
Definition rf_128_channels (now : Z) : ROSflight :=
  mkROSflight (params_int 0 128) (params_float F32.c0_1) false now
    false (fun _ => 1500) (fun _ => false) (fun _ => false)
    (sticks F32.zero F32.zero).

(** Disarmed with a fault other than [sample_ERROR_RC_LOST]. *)
Definition mode_other_fault : Mode :=
  mkMode false 0x0002 false false 1000 0 0 [].

(** Armed with a fault other than [sample_ERROR_RC_LOST], the sticks held
    for 490 ms. *)
Definition mode_armed_fault : Mode :=
  mkMode true 0x0002 false false 1000 490 0 [led1_on].

(** Last processed 5 ms before the clock wraps around. *)
Definition mode_before_wrap : Mode :=
  mkMode false ERROR_NONE false false (2 ^ 32 - 5) 0 0 [].

(** Disarmed, no fault, the sticks held for 490 ms. *)
Definition mode_held_490 : Mode :=
  mkMode false ERROR_NONE false false 1000 490 0 [led1_off].

(** ** The arming gate *)

(** C1, as stated, fails: [disarm] called while a calibration is pending
    and the sticks have been held for 300 ms leaves the calibration latch
    set and the hold timer at 300. *)
Lemma disarm_clears_latch_and_timer_counterexample :
  ~ (_armed (disarm mode_cal_pending) = false
     /\ started_gyro_calibration (disarm mode_cal_pending) = false
     /\ time_sticks_have_been_in_arming_position_ms (disarm mode_cal_pending) = 0).
Proof.
  intros (_ & Hlatch & _). cbn in Hlatch. discriminate Hlatch.
Qed.

(** C1, amended: in every state [disarm] leaves [armed() == false] and
    switches the LED off; the calibration latch, the hold timer and every
    other member are left as they were. *)
Theorem disarm_clears_armed_only : forall m : Mode,
  _armed (disarm m) = false
  /\ calls (disarm m) = led1_off :: calls m
  /\ started_gyro_calibration (disarm m) = started_gyro_calibration m
  /\ time_sticks_have_been_in_arming_position_ms (disarm m)
     = time_sticks_have_been_in_arming_position_ms m
  /\ _error_code (disarm m) = _error_code m
  /\ _failsafe_active (disarm m) = _failsafe_active m
  /\ prev_time_ms (disarm m) = prev_time_ms m
  /\ count (disarm m) = count m.
Proof.
  intros m. unfold disarm. cbn. repeat split.
Qed.

Lemma arm_fault : forall rf m,
  _error_code m <> ERROR_NONE -> arm rf m = (false, m).
Proof.
  intros rf m Hfault. unfold arm.
  destruct (Z.eqb_spec (_error_code m) ERROR_NONE) as [Heq | _].
  - contradiction.
  - reflexivity.
Qed.

(** C2: while a fault is active every call of [arm] returns false and
    leaves the state as it was, also when repeated: [armed()] stays
    false, no calibration is requested, the latch is unchanged. *)
Theorem arm_refused_under_fault : forall (m : Mode) (rf : ROSflight) (rfs : list ROSflight),
  _error_code m <> ERROR_NONE ->
  arm rf m = (false, m)
  /\ arm_each rfs m = (repeat false (length rfs), m).
Proof.
  intros m rf rfs Hfault. split.
  - now apply arm_fault.
  - induction rfs as [| rf' rfs' IH]; cbn.
    + reflexivity.
    + rewrite (arm_fault rf' m Hfault), IH. reflexivity.
Qed.

Lemma arm_calibration_pending : forall rf m,
  _error_code m = ERROR_NONE ->
  get_param_int rf PARAM_CALIBRATE_GYRO_ON_ARM <> 0 ->
  started_gyro_calibration m = true ->
  gyro_calibration_complete rf = false ->
  arm rf m = (false, m).
Proof.
  intros rf m Hnone Hcal Hlatch Hpending. unfold arm.
  rewrite Hnone, Hlatch, Hpending. cbn.
  destruct (Z.eqb_spec (get_param_int rf PARAM_CALIBRATE_GYRO_ON_ARM) 0);
    [contradiction | reflexivity].
Qed.

(** C3: with calibration on arm enabled, no fault, disarmed and the
    latch clear, the first [arm] requests the calibration, sets the latch
    and returns false; the calls that follow while the calibration is
    not complete return false and change nothing; the first call that
    sees it complete arms, clears the latch, switches the LED on and
    returns true. *)
Theorem arm_after_calibration :
  forall (m : Mode) (rf0 : ROSflight) (rfs : list ROSflight) (rf1 : ROSflight),
  _error_code m = ERROR_NONE ->
  _armed m = false ->
  started_gyro_calibration m = false ->
  get_param_int rf0 PARAM_CALIBRATE_GYRO_ON_ARM <> 0 ->
  Forall (fun rf => get_param_int rf PARAM_CALIBRATE_GYRO_ON_ARM <> 0
                    /\ gyro_calibration_complete rf = false) rfs ->
  get_param_int rf1 PARAM_CALIBRATE_GYRO_ON_ARM <> 0 ->
  gyro_calibration_complete rf1 = true ->
  let m1 := with_started_gyro_calibration true (do_call start_gyro_calibration m) in
  let m2 := do_call led1_on (with_armed true (with_started_gyro_calibration false m1)) in
  arm rf0 m = (false, m1)
  /\ arm_each rfs m1 = (repeat false (length rfs), m1)
  /\ arm rf1 m1 = (true, m2)
  /\ calls m2 = [led1_on; start_gyro_calibration] ++ calls m
  /\ calibration_requests m2 = S (calibration_requests m)
  /\ _armed m2 = true
  /\ started_gyro_calibration m2 = false.
Proof.
  intros m rf0 rfs rf1 Hnone Hdis Hlatch Hcal0 Hrfs Hcal1 Hdone m1 m2.
  assert (Hfirst : arm rf0 m = (false, m1)).
  { unfold arm. rewrite Hnone, Hdis, Hlatch. cbn.
    destruct (Z.eqb_spec (get_param_int rf0 PARAM_CALIBRATE_GYRO_ON_ARM) 0);
      [contradiction | reflexivity]. }
  assert (Hpolls : arm_each rfs m1 = (repeat false (length rfs), m1)).
  { induction Hrfs as [| rf rfs' [Hcal Hpending] _ IH]; cbn [arm_each length repeat].
    - reflexivity.
    - rewrite (arm_calibration_pending rf m1), IH; auto. }
  assert (Hlast : arm rf1 m1 = (true, m2)).
  { unfold arm. subst m1. cbn [_error_code with_started_gyro_calibration do_call
      started_gyro_calibration _armed].
    rewrite Hnone, Hdone. cbn.
    destruct (Z.eqb_spec (get_param_int rf1 PARAM_CALIBRATE_GYRO_ON_ARM) 0);
      [contradiction | reflexivity]. }
  repeat split; assumption || reflexivity.
Qed.





(** ** The loop over the channels *)

Lemma int8_in_range : forall z, -128 <= int8 z <= 127.
Proof.
  intros z. unfold int8.
  pose proof (Z.mod_pos_bound (z + 128) 256 ltac:(lia)). lia.
Qed.

Lemma int8_small : forall z, -128 <= z <= 127 -> int8 z = z.
Proof.
  intros z Hz. unfold int8. rewrite Z.mod_small; lia.
Qed.

(** With more than 127 channels configured the counter wraps around
    before it reaches the bound: the loop is never left. *)
Lemma rc_channels_loop_diverges : forall rf fuel i failsafe,
  127 < get_param_int rf PARAM_RC_NUM_CHANNELS ->
  -128 <= i <= 127 ->
  rc_channels_loop fuel rf i failsafe = None.
Proof.
  intros rf fuel. induction fuel as [| fuel IH]; intros i failsafe Hn Hi; cbn.
  - reflexivity.
  - destruct (Z.ltb_spec i (get_param_int rf PARAM_RC_NUM_CHANNELS)); [| lia].
    apply IH; [assumption | apply int8_in_range].
Qed.

Lemma pwm_invalid_iff : forall rf i,
  pwm_invalid rf i = true <-> pulse_out_of_range rf i.
Proof.
  intros rf i. unfold pwm_invalid, pulse_out_of_range.
  rewrite orb_true_iff, Z.ltb_lt, Z.gtb_ltb, Z.ltb_lt. reflexivity.
Qed.

(** Otherwise it is left, with the flag raised iff it was raised before
    or one of the channels from [i] on is out of range. *)
Lemma rc_channels_loop_terminates : forall rf fuel i failsafe,
  channels_reachable rf ->
  0 <= i ->
  (Z.to_nat (get_param_int rf PARAM_RC_NUM_CHANNELS - i) < fuel)%nat ->
  exists b,
    rc_channels_loop fuel rf i failsafe = Some b
    /\ (b = true <->
        failsafe = true
        \/ exists j, i <= j < get_param_int rf PARAM_RC_NUM_CHANNELS
                     /\ pulse_out_of_range rf j).
Proof.
  intros rf fuel. unfold channels_reachable.
  induction fuel as [| fuel IH]; intros i failsafe Hn Hi Hfuel; [lia |].
  cbn [rc_channels_loop].
  destruct (Z.ltb_spec i (get_param_int rf PARAM_RC_NUM_CHANNELS)) as [Hlt | Hge].
  - rewrite int8_small by lia.
    destruct (IH (i + 1) (if pwm_invalid rf i then true else failsafe) Hn)
      as (b & Hrun & Hb); [lia | lia |].
    exists b. split; [exact Hrun |]. rewrite Hb. split.
    + intros [Hflag | (j & Hj & Hout)].
      * destruct (pwm_invalid rf i) eqn:Hinv; [| now left].
        right. exists i. split; [lia | now apply pwm_invalid_iff].
      * right. exists j. split; [lia | exact Hout].
    + intros [Hflag | (j & Hj & Hout)].
      * left. rewrite Hflag. now destruct (pwm_invalid rf i).
      * destruct (Z.eq_dec j i) as [-> | Hne].
        -- left. apply pwm_invalid_iff in Hout. now rewrite Hout.
        -- right. exists j. split; [lia | exact Hout].
  - exists failsafe. split; [reflexivity |]. split.
    + intros Hflag. now left.
    + intros [Hflag | (j & Hj & _)]; [exact Hflag | lia].
Qed.

Lemma rc_channels_loop_invalid : forall rf,
  channel_failsafe rf ->
  rc_channels_loop rc_channels_fuel rf 0 false = Some true.
Proof.
  intros rf (_ & Hn & Hbad).
  destruct (rc_channels_loop_terminates rf rc_channels_fuel 0 false Hn)
    as (b & Hrun & Hb).
  - lia.
  - unfold channels_reachable in Hn. unfold rc_channels_fuel. lia.
  - rewrite Hrun. f_equal. apply Hb. now right.
Qed.

Lemma rc_channels_loop_valid : forall rf,
  rc_valid rf ->
  rc_channels_loop rc_channels_fuel rf 0 false = Some false.
Proof.
  intros rf (_ & Hn & Hgood).
  destruct (rc_channels_loop_terminates rf rc_channels_fuel 0 false Hn)
    as (b & Hrun & Hb).
  - lia.
  - unfold channels_reachable in Hn. unfold rc_channels_fuel. lia.
  - rewrite Hrun. f_equal. destruct b; [| reflexivity].
    destruct Hb as [Hb _]. destruct (Hb eq_refl) as [Hflag | (j & Hj & Hout)].
    + discriminate Hflag.
    + specialize (Hgood j Hj). unfold pulse_out_of_range in Hout. lia.
Qed.

(** ** The failsafe detector *)

Lemma check_failsafe_link_lost : forall rf m,
  pwm_lost rf = true ->
  check_failsafe rf m = Some (true, failsafe_on (set_error_code ERROR_RC_LOST m)).
Proof.
  intros rf m Hlost. unfold check_failsafe. rewrite Hlost. reflexivity.
Qed.

Lemma check_failsafe_channel : forall rf m,
  channel_failsafe rf ->
  check_failsafe rf m = Some (true, failsafe_on m).
Proof.
  intros rf m Hbad. unfold check_failsafe.
  rewrite (rc_channels_loop_invalid rf Hbad).
  destruct Hbad as (-> & _). reflexivity.
Qed.

Lemma check_failsafe_valid : forall rf m,
  rc_valid rf ->
  check_failsafe rf m = Some (false, failsafe_off m).
Proof.
  intros rf m Hok. unfold check_failsafe.
  rewrite (rc_channels_loop_valid rf Hok).
  destruct Hok as (-> & _). reflexivity.
Qed.

Lemma set_error_code_is_set : forall code m,
  error_is_set code (set_error_code code m).
Proof.
  intros code m. unfold error_is_set, set_error_code. cbn.
  apply Z.bits_inj'. intros n _.
  rewrite Z.land_spec, Z.lor_spec.
  destruct (Z.testbit (_error_code m) n), (Z.testbit code n); reflexivity.
Qed.


Lemma failsafe_on_fields : forall m,
  _failsafe_active (failsafe_on m) = true
  /\ _error_code (failsafe_on m) = _error_code m
  /\ _armed (failsafe_on m) = _armed m
  /\ started_gyro_calibration (failsafe_on m) = started_gyro_calibration m
  /\ prev_time_ms (failsafe_on m) = prev_time_ms m
  /\ time_sticks_have_been_in_arming_position_ms (failsafe_on m)
     = time_sticks_have_been_in_arming_position_ms m.
Proof.
  intros m. unfold failsafe_on.
  destruct (count m >? 25); cbn; repeat split.
Qed.


(** ** The blink counter *)

Lemma uint8_small : forall z, 0 <= z < 256 -> uint8 z = z.
Proof.
  intros z Hz. unfold uint8. apply Z.mod_small. lia.
Qed.

Lemma blink_count_bounds : forall p, 0 <= blink_count p <= 26.
Proof.
  intros [| q]; cbn [blink_count]; [lia |].
  pose proof (Nat.mod_upper_bound q 26 ltac:(lia)). lia.
Qed.

Lemma failsafe_on_count : forall m,
  count (failsafe_on m) = uint8 ((if count m >? 25 then 0 else count m) + 1).
Proof.
  intros m. unfold failsafe_on. destruct (count m >? 25); reflexivity.
Qed.

Lemma failsafe_on_calls : forall m,
  calls (failsafe_on m)
  = if count m >? 25 then led1_toggle :: calls m else calls m.
Proof.
  intros m. unfold failsafe_on. destruct (count m >? 25); reflexivity.
Qed.

Lemma toggles_toggle : forall cs,
  count_occ call_eq_dec (led1_toggle :: cs) led1_toggle
  = S (count_occ call_eq_dec cs led1_toggle).
Proof.
  intros cs. apply count_occ_cons_eq. reflexivity.
Qed.

(** One failsafe cycle, [p] cycles after a fresh counter. *)
Lemma failsafe_on_blink : forall m p,
  count m = blink_count p ->
  count (failsafe_on m) = blink_count (S p)
  /\ (toggles (failsafe_on m) + (p - 1) / 26 = toggles m + p / 26)%nat.
Proof.
  intros m p Hcount. unfold toggles.
  rewrite failsafe_on_count, failsafe_on_calls.
  pose proof (blink_count_bounds p) as Hb.
  destruct (Z.gtb_spec (count m) 25) as [Hgt | Hle].
  - rewrite toggles_toggle, uint8_small by lia.
    destruct p as [| q]; cbn [blink_count] in *; [lia |].
    pose proof (Nat.mod_upper_bound q 26 ltac:(lia)) as Hq.
    assert (Hmod : (q mod 26 = 25)%nat) by lia.
    pose proof (Nat.div_mod_eq q 26) as Hdq.
    pose proof (Nat.div_mod_eq (S q) 26) as HdS.
    pose proof (Nat.mod_upper_bound (S q) 26 ltac:(lia)) as HS.
    replace (S q - 1)%nat with q by lia.
    assert (HSq : (S q / 26 = S (q / 26) /\ S q mod 26 = 0)%nat) by lia.
    destruct HSq as [Hdiv HmodS]. rewrite Hdiv, HmodS. split; [reflexivity | lia].
  - rewrite uint8_small by lia.
    destruct p as [| q]; cbn [blink_count] in *.
    + rewrite Hcount. split; reflexivity.
    + pose proof (Nat.mod_upper_bound q 26 ltac:(lia)) as Hq.
      pose proof (Nat.div_mod_eq q 26) as Hdq.
      pose proof (Nat.div_mod_eq (S q) 26) as HdS.
      pose proof (Nat.mod_upper_bound (S q) 26 ltac:(lia)) as HS.
      replace (S q - 1)%nat with q by lia.
      assert (HSq : (S q / 26 = q / 26 /\ S q mod 26 = S (q mod 26))%nat) by lia.
      destruct HSq as [Hdiv HmodS]. rewrite Hdiv, HmodS. split; lia.
Qed.

Lemma check_failsafe_failsafe_input : forall rf m,
  failsafe_input rf ->
  exists m1,
    check_failsafe rf m = Some (true, failsafe_on m1)
    /\ count m1 = count m /\ calls m1 = calls m
    /\ (_error_code m1 = _error_code m
        \/ m1 = set_error_code ERROR_RC_LOST m).
Proof.
  intros rf m [Hlost | Hbad].
  - exists (set_error_code ERROR_RC_LOST m).
    rewrite (check_failsafe_link_lost rf m Hlost). auto.
  - exists m. rewrite (check_failsafe_channel rf m Hbad). auto.
Qed.

Lemma check_failsafe_each_blink : forall rfs m p,
  count m = blink_count p ->
  Forall failsafe_input rfs ->
  exists m',
    check_failsafe_each rfs m = Some m'
    /\ count m' = blink_count (p + length rfs)
    /\ (toggles m' + (p - 1) / 26
        = toggles m + (p + length rfs - 1) / 26)%nat.
Proof.
  induction rfs as [| rf rfs IH]; intros m p Hcount Hall; cbn [check_failsafe_each length].
  - exists m. rewrite !Nat.add_0_r. auto.
  - inversion Hall as [| ? ? Hrf Hrest]; subst.
    destruct (check_failsafe_failsafe_input rf m Hrf) as (m1 & -> & Hc1 & Hcalls1 & _).
    assert (Hcount1 : count m1 = blink_count p) by congruence.
    destruct (failsafe_on_blink m1 p Hcount1) as (Hnext & Htog).
    destruct (IH (failsafe_on m1) (S p) Hnext Hrest) as (m' & Hrun & Hc' & Ht').
    exists m'. split; [exact Hrun |].
    replace (p + S (length rfs))%nat with (S p + length rfs)%nat by lia.
    split; [exact Hc' |].
    replace (S p - 1)%nat with p in Ht' by lia.
    assert (Hsame : toggles m1 = toggles m) by (unfold toggles; now rewrite Hcalls1).
    lia.
Qed.

(** C8, amended: a call of [check_failsafe] that evaluates failsafe true
    toggles the LED and restarts the blink counter at 1 when the counter
    is above 25, and increments the counter otherwise; from a fresh
    counter, the LED has been toggled [(n - 1) / 26] times after [n]
    consecutive failsafe cycles: first in cycle 27, then every 26 cycles. *)
Theorem failsafe_blink : forall (rf : ROSflight) (rfs : list ROSflight) (m : Mode),
  failsafe_input rf ->
  Forall failsafe_input rfs ->
  (exists m', check_failsafe rf m = Some (true, m')
              /\ if count m >? 25
                 then calls m' = led1_toggle :: calls m /\ count m' = 1
                 else calls m' = calls m /\ count m' = uint8 (count m + 1))
  /\ (count m = 0 ->
      exists m', check_failsafe_each rfs m = Some m'
                 /\ toggles m' = (toggles m + (length rfs - 1) / 26)%nat
                 /\ count m' = blink_count (length rfs)).
Proof.
  intros rf rfs m Hrf Hrfs. split.
  - destruct (check_failsafe_failsafe_input rf m Hrf) as (m1 & -> & Hc1 & Hcalls1 & _).
    eexists. split; [reflexivity |]. unfold failsafe_on.
    rewrite Hc1. destruct (count m >? 25); cbn; rewrite ?Hc1, ?Hcalls1; auto.
  - intros Hfresh.
    destruct (check_failsafe_each_blink rfs m 0 Hfresh Hrfs) as (m' & Hrun & Hc' & Ht').
    exists m'. cbn in Ht', Hc'. rewrite Nat.add_0_r in Ht'. auto.
Qed.

(** ** The RC lost error *)

Lemma check_failsafe_each_channel : forall rfs m,
  Forall channel_failsafe rfs ->
  exists m',
    check_failsafe_each rfs m = Some m'
    /\ _error_code m' = _error_code m
    /\ (rfs <> [] -> _failsafe_active m' = true).
Proof.
  induction rfs as [| rf rfs IH]; intros m Hall; cbn [check_failsafe_each].
  - exists m. repeat split. congruence.
  - inversion Hall as [| ? ? Hrf Hrest]; subst.
    rewrite (check_failsafe_channel rf m Hrf).
    destruct (failsafe_on_fields m) as (Hfs & Hcode & _).
    destruct (IH (failsafe_on m) Hrest) as (m' & Hrun & Hcode' & Hfs').
    exists m'. split; [exact Hrun |]. split; [congruence |].
    intros _. destruct rfs as [| rf' rfs'].
    + cbn in Hrun. now injection Hrun as <-.
    + apply Hfs'. discriminate.
Qed.

(** A call of [check_failsafe] that lowers [ERROR_RC_LOST] evaluates
    failsafe false. *)
Lemma rc_lost_cleared_without_failsafe : forall rf m failsafe m',
  check_failsafe rf m = Some (failsafe, m') ->
  error_is_set ERROR_RC_LOST m ->
  ~ error_is_set ERROR_RC_LOST m' ->
  failsafe = false.
Proof.
  intros rf m failsafe m' Hrun Hset Hclear.
  destruct failsafe; [exfalso | reflexivity]. apply Hclear.
  unfold check_failsafe in Hrun. destruct (pwm_lost rf).
  - injection Hrun as <-.
    destruct (failsafe_on_fields (set_error_code ERROR_RC_LOST m)) as (_ & Hcode & _).
    unfold error_is_set. rewrite Hcode. apply set_error_code_is_set.
  - destruct (rc_channels_loop rc_channels_fuel rf 0 false) as [[|] |];
      [| discriminate | discriminate].
    injection Hrun as <-.
    destruct (failsafe_on_fields m) as (_ & Hcode & _).
    unfold error_is_set. now rewrite Hcode.
Qed.

(** C10: once a call of [check_failsafe] has seen the link lost,
    [ERROR_RC_LOST] stays set during all the following calls that see the
    link present with a configured channel out of range; a call that
    lowers it evaluates failsafe false. *)
Theorem rc_lost_persists :
  forall (rf0 : ROSflight) (rfs : list ROSflight) (m : Mode),
  pwm_lost rf0 = true ->
  Forall channel_failsafe rfs ->
  exists m1,
    check_failsafe rf0 m = Some (true, m1)
    /\ error_is_set ERROR_RC_LOST m1
    /\ (forall k : nat, exists mk,
          check_failsafe_each (firstn k rfs) m1 = Some mk
          /\ error_is_set ERROR_RC_LOST mk
          /\ _failsafe_active mk = true)
    /\ (forall rf mk failsafe mk',
          check_failsafe rf mk = Some (failsafe, mk') ->
          error_is_set ERROR_RC_LOST mk ->
          ~ error_is_set ERROR_RC_LOST mk' ->
          failsafe = false).
Proof.
  intros rf0 rfs m Hlost Hrfs.
  destruct (failsafe_on_fields (set_error_code ERROR_RC_LOST m)) as (Hfs & Hcode & _).
  assert (Hset : error_is_set ERROR_RC_LOST (failsafe_on (set_error_code ERROR_RC_LOST m))).
  { unfold error_is_set. rewrite Hcode. apply set_error_code_is_set. }
  exists (failsafe_on (set_error_code ERROR_RC_LOST m)).
  split; [now apply check_failsafe_link_lost |].
  split; [exact Hset |]. split.
  - intros k.
    assert (Hprefix : Forall channel_failsafe (firstn k rfs)).
    { rewrite <- (firstn_skipn k rfs) in Hrfs.
      apply Forall_app in Hrfs. exact (proj1 Hrfs). }
    destruct (check_failsafe_each_channel (firstn k rfs)
                (failsafe_on (set_error_code ERROR_RC_LOST m)) Hprefix)
      as (mk & Hrun & Hcodek & Hfsk).
    exists mk. split; [exact Hrun |]. split.
    + unfold error_is_set in *. now rewrite Hcodek.
    + destruct (firstn k rfs) as [| rf' rfs'] eqn:Hfirst.
      * cbn in Hrun. injection Hrun as <-. exact Hfs.
      * apply Hfsk. discriminate.
  - exact rc_lost_cleared_without_failsafe.
Qed.

(** ** The state update *)

Lemma arm_frame : forall rf m,
  prev_time_ms (snd (arm rf m)) = prev_time_ms m
  /\ time_sticks_have_been_in_arming_position_ms (snd (arm rf m))
     = time_sticks_have_been_in_arming_position_ms m
  /\ _error_code (snd (arm rf m)) = _error_code m
  /\ (fst (arm rf m) = true -> _armed (snd (arm rf m)) = true)
  /\ (fst (arm rf m) = false -> _armed (snd (arm rf m)) = _armed m).
Proof.
  intros rf m. unfold arm.
  destruct (negb (_error_code m =? ERROR_NONE));
    [| destruct (negb (get_param_int rf PARAM_CALIBRATE_GYRO_ON_ARM =? 0));
       [destruct (negb (started_gyro_calibration m) && negb (_armed m));
          [| destruct (gyro_calibration_complete rf)]
       | destruct (negb (_armed m))]];
    cbn; repeat split; trivial; discriminate.
Qed.


Lemma check_failsafe_frame : forall rf m failsafe m1,
  check_failsafe rf m = Some (failsafe, m1) ->
  _armed m1 = _armed m
  /\ started_gyro_calibration m1 = started_gyro_calibration m
  /\ prev_time_ms m1 = prev_time_ms m
  /\ time_sticks_have_been_in_arming_position_ms m1
     = time_sticks_have_been_in_arming_position_ms m.
Proof.
  intros rf m failsafe m1 Hrun. unfold check_failsafe in Hrun.
  destruct (pwm_lost rf).
  - injection Hrun as <- <-.
    destruct (failsafe_on_fields (set_error_code ERROR_RC_LOST m))
      as (_ & _ & -> & -> & -> & ->). repeat split.
  - destruct (rc_channels_loop rc_channels_fuel rf 0 false) as [[|] |];
      [| | discriminate]; injection Hrun as <- <-.
    + destruct (failsafe_on_fields m) as (_ & _ & -> & -> & -> & ->).
      repeat split.
    + repeat split.
Qed.

(** A call of [update_state] that goes past the rate limit returns true
    with [prev_time_ms] set to the clock, if it returns. *)
Lemma update_state_processed : forall rf m r m',
  20 <= uint32 (clock_millis rf - prev_time_ms m) ->
  update_state rf m = Some (r, m') ->
  r = true /\ prev_time_ms m' = clock_millis rf.
Proof.
  intros rf m r m' Hdt Hrun. unfold update_state in Hrun.
  destruct (Z.ltb_spec (uint32 (clock_millis rf - prev_time_ms m)) 20) as [Hlt | _];
    [lia |].
  destruct (check_failsafe rf (with_prev_time_ms (clock_millis rf) m))
    as [[failsafe m1] |] eqn:Hfs; [| discriminate].
  apply check_failsafe_frame in Hfs. destruct Hfs as (_ & _ & Hprev & _).
  cbn in Hprev.
  destruct failsafe; [injection Hrun as <- <-; auto |].
  cbv zeta in Hrun.
  destruct (negb (rc_switch_mapped rf RC_SWITCH_ARM)).
  - destruct (negb (_armed m1)).
    + destruct (sticks_in_arming_position rf);
        match type of Hrun with
        | context [if ?c then _ else _] => destruct c
        end;
        try match type of Hrun with
            | context [arm rf ?m2] =>
                pose proof (arm_frame rf m2) as (Harm & _);
                destruct (arm rf m2) as [[|] m3]
            end;
        injection Hrun as <- <-; cbn in *; split; congruence.
    + destruct (sticks_in_disarming_position rf);
        match type of Hrun with
        | context [if ?c then _ else _] => destruct c
        end;
        injection Hrun as <- <-; cbn; split; congruence.
  - destruct (rc_switch rf RC_SWITCH_ARM).
    + destruct (negb (_armed m1)); injection Hrun as <- <-;
        [split; [reflexivity |] | auto].
      now destruct (arm_frame rf m1) as (-> & _).
    + injection Hrun as <- <-. cbn. auto.
Qed.


(** ** The gesture timer *)

Lemma failsafe_off_fields : forall m,
  _armed (failsafe_off m) = _armed m
  /\ time_sticks_have_been_in_arming_position_ms (failsafe_off m)
     = time_sticks_have_been_in_arming_position_ms m
  /\ prev_time_ms (failsafe_off m) = prev_time_ms m
  /\ started_gyro_calibration (failsafe_off m) = started_gyro_calibration m
  /\ _error_code (failsafe_off m) = Z.land (_error_code m) (Z.lnot ERROR_RC_LOST).
Proof.
  intros m. unfold failsafe_off. cbn. repeat split.
Qed.

(** C6, amended: in a processed epoch without failsafe and with no arming
    switch mapped, the hold timer is zero afterwards if the gesture of the
    current direction is not held, and it is zero after every change of
    the armed flag; in a processed epoch with failsafe the timer and the
    armed flag are left as they were. *)
Theorem held_timer_reset : forall (rf : ROSflight) (m : Mode),
  20 <= uint32 (clock_millis rf - prev_time_ms m) ->
  (rc_valid rf ->
   rc_switch_mapped rf RC_SWITCH_ARM = false ->
   exists m', update_state rf m = Some (true, m')
              /\ (gesture_held rf m = false ->
                  time_sticks_have_been_in_arming_position_ms m' = 0)
              /\ (_armed m' <> _armed m ->
                  time_sticks_have_been_in_arming_position_ms m' = 0))
  /\ (failsafe_input rf ->
      exists m', update_state rf m = Some (true, m')
                 /\ time_sticks_have_been_in_arming_position_ms m'
                    = time_sticks_have_been_in_arming_position_ms m
                 /\ _armed m' = _armed m).
Proof.
  intros rf m Hdt. split.
  - intros Hvalid Hsw. unfold update_state, gesture_held.
    destruct (Z.ltb_spec (uint32 (clock_millis rf - prev_time_ms m)) 20) as [Hlt | _];
      [lia |].
    rewrite (check_failsafe_valid rf _ Hvalid), Hsw. cbv zeta. cbn [negb].
    destruct (failsafe_off_fields (with_prev_time_ms (clock_millis rf) m))
      as (Harmed & _).
    cbn [_armed with_prev_time_ms] in Harmed. rewrite Harmed.
    set (m1 := failsafe_off (with_prev_time_ms (clock_millis rf) m)) in *.
    destruct (_armed m) eqn:Hwas; cbn [negb].
    + destruct (sticks_in_disarming_position rf).
      * match goal with |- context [if ?c then _ else _] => destruct c end;
          eexists; (split; [reflexivity |]); cbn; rewrite ?Harmed;
          split; congruence.
      * eexists. split; [reflexivity |]. cbn. rewrite ?Harmed. split; congruence.
    + destruct (sticks_in_arming_position rf).
      * match goal with |- context [if ?c then _ else _] => destruct c end.
        -- match goal with |- context [arm rf ?m2] =>
             pose proof (arm_frame rf m2) as (_ & _ & _ & _ & Hsame);
             destruct (arm rf m2) as [[|] m3]
           end; (eexists; split; [reflexivity |]); cbn in *.
           ++ split; congruence.
           ++ rewrite Hsame, Harmed by reflexivity. split; congruence.
        -- eexists. split; [reflexivity |]. cbn. rewrite ?Harmed. split; congruence.
      * eexists. split; [reflexivity |]. cbn. rewrite ?Harmed. split; congruence.
  - intros Hfs. unfold update_state.
    destruct (Z.ltb_spec (uint32 (clock_millis rf - prev_time_ms m)) 20) as [Hlt | _];
      [lia |].
    destruct (check_failsafe_failsafe_input rf
                (with_prev_time_ms (clock_millis rf) m) Hfs) as (m1 & Hrun & _).
    rewrite Hrun. eexists. split; [reflexivity |].
    apply check_failsafe_frame in Hrun.
    destruct Hrun as (Harmed & _ & _ & Htime). cbn in Harmed, Htime. auto.
Qed.

(** ** Gesture arming *)

Lemma uint32_step : forall now prev t,
  uint32 prev = uint32 t ->
  now - t = 20 ->
  uint32 (uint32 now - prev) = 20.
Proof.
  intros now prev t Hprev Hstep. unfold uint32 in *.
  rewrite Zminus_mod_idemp_l, Zminus_mod, Hprev, <- Zminus_mod, Hstep.
  reflexivity.
Qed.

Lemma uint32_small : forall z, 0 <= z < 2 ^ 32 -> uint32 z = z.
Proof.
  intros z Hz. unfold uint32. now apply Z.mod_small.
Qed.

(** Throttle 0.0 and yaw 0.95 with threshold 0.1 are the arming gesture
    and not the disarming one. *)
Lemma gesture_arming_sticks : forall rf,
  get_param_float rf PARAM_ARM_THRESHOLD = F32.c0_1 ->
  rc_stick rf RC_STICK_F = F32.zero ->
  rc_stick rf RC_STICK_Z = F32.c0_95 ->
  sticks_in_arming_position rf = true
  /\ sticks_in_disarming_position rf = false.
Proof.
  intros rf Hthr Hf Hz.
  unfold sticks_in_arming_position, sticks_in_disarming_position.
  rewrite Hthr, Hf, Hz. split; vm_compute; reflexivity.
Qed.

Lemma gesture_arming_step : forall t0 rfs n m,
  gesture_arming_input t0 rfs ->
  gesture_arming_state t0 n m ->
  exists m', update_state (rfs (S n)) m = Some (true, m')
             /\ gesture_arming_state t0 (S n) m'.
Proof.
  intros t0 rfs n m Hin (Hprev & Hnone & Harmed & Htime).
  destruct (Hin (S n)) as (Hclock & Hvalid & Hsw & Hcal & Hthr & Hf & Hz).
  destruct (gesture_arming_sticks _ Hthr Hf Hz) as (Harming & Hdisarming).
  assert (Hdt : uint32 (clock_millis (rfs (S n)) - prev_time_ms m) = 20).
  { rewrite Hclock. apply uint32_step with (t := t0 + 20 * Z.of_nat n); [exact Hprev | lia]. }
  unfold update_state. rewrite Hdt. change (20 <? 20) with false. cbv iota zeta.
  rewrite (check_failsafe_valid _ _ Hvalid), Hsw. cbn [negb].
  destruct (failsafe_off_fields (with_prev_time_ms (clock_millis (rfs (S n))) m))
    as (Ha1 & Ht1 & Hp1 & _ & He1).
  cbn [_armed time_sticks_have_been_in_arming_position_ms prev_time_ms
       _error_code with_prev_time_ms] in Ha1, Ht1, Hp1, He1.
  rewrite Hnone in He1. change (Z.land ERROR_NONE _) with 0 in He1.
  set (m1 := failsafe_off (with_prev_time_ms (clock_millis (rfs (S n))) m)) in *.
  rewrite Ha1, Harmed, Harming, Hdisarming.
  unfold gesture_arming_state.
  destruct (Nat.leb_spec 26 n) as [Hge | Hlt]; cbn [negb].
  - (* armed since epoch 26 *)
    cbn [time_sticks_have_been_in_arming_position_ms with_time_sticks].
    change (0 >? 500) with false. cbv iota.
    eexists. split; [reflexivity |].
    cbn [prev_time_ms _error_code _armed
         time_sticks_have_been_in_arming_position_ms with_time_sticks].
    rewrite Hp1, He1, Ha1, Harmed, Hclock.
    destruct (Nat.leb_spec 26 n); [| lia].
    destruct (Nat.leb_spec 26 (S n)); [| lia].
    destruct (Nat.ltb_spec (S n) 26); [lia |].
    repeat split. unfold uint32. now rewrite Zmod_mod.
  - (* still disarmed *)
    cbn [time_sticks_have_been_in_arming_position_ms with_time_sticks].
    rewrite Ht1, Htime.
    destruct (Nat.ltb_spec n 26) as [_ | ?]; [| lia].
    rewrite uint32_small by lia.
    destruct (Z.gtb_spec (20 * Z.of_nat n + 20) 500) as [Hfire | Hwait].
    + (* the 26th epoch *)
      assert (Hn : n = 25%nat) by lia. subst n.
      unfold arm.
      cbn [_error_code _armed started_gyro_calibration with_time_sticks].
      rewrite He1, Hcal, Ha1, Harmed. cbn [Z.eqb negb Nat.leb].
      eexists. split; [reflexivity |].
      cbn [prev_time_ms _error_code _armed
           time_sticks_have_been_in_arming_position_ms with_time_sticks
           with_armed do_call].
      rewrite Hp1, He1, Hclock. repeat split.
      unfold uint32. now rewrite Zmod_mod.
    + eexists. split; [reflexivity |].
      cbn [prev_time_ms _error_code _armed
           time_sticks_have_been_in_arming_position_ms with_time_sticks].
      rewrite Hp1, He1, Ha1, Harmed, Hclock.
      destruct (Nat.leb_spec 26 n); [lia |].
      destruct (Nat.leb_spec 26 (S n)); [lia |].
      destruct (Nat.ltb_spec (S n) 26); [| lia].
      repeat split; [unfold uint32; now rewrite Zmod_mod | lia].
Qed.

(** C9: with no arming switch mapped, threshold 0.1, no calibration on
    arm, no fault, no failsafe, and starting disarmed with the hold timer
    at 0, holding throttle at 0.0 and yaw at 0.95 over epochs of 20 ms
    each leaves the module disarmed with 20 ms accumulated per epoch
    during the first 25 epochs, arms it in the 26th, when the accumulated
    hold of 520 ms first exceeds 500 ms, and keeps it armed afterwards. *)
Theorem gesture_arms_at_epoch_26 : forall (t0 : Z) (rfs : nat -> ROSflight) (m : Mode),
  gesture_arming_input t0 rfs ->
  prev_time_ms m = t0 ->
  _armed m = false ->
  time_sticks_have_been_in_arming_position_ms m = 0 ->
  _error_code m = ERROR_NONE ->
  forall n : nat,
  exists m', update_state_upto rfs n m = Some m'
             /\ _armed m' = (26 <=? n)%nat
             /\ time_sticks_have_been_in_arming_position_ms m'
                = (if (n <? 26)%nat then 20 * Z.of_nat n else 0)
             /\ uint32 (prev_time_ms m') = uint32 (t0 + 20 * Z.of_nat n).
Proof.
  intros t0 rfs m Hin Hprev Hdis Htime Hnone n.
  assert (Hinv : exists m', update_state_upto rfs n m = Some m'
                            /\ gesture_arming_state t0 n m').
  { induction n as [| n (m1 & Hrun & Hstate)]; cbn [update_state_upto].
    - exists m. split; [reflexivity |]. unfold gesture_arming_state.
      rewrite Hprev, Hdis, Htime, Hnone. cbn. rewrite Z.add_0_r. auto.
    - destruct (gesture_arming_step t0 rfs n m1 Hin Hstate) as (m2 & Hstep & Hstate2).
      exists m2. rewrite Hrun, Hstep. auto. }
  destruct Hinv as (m' & Hrun & Hp & _ & Ha & Ht).
  exists m'. auto.
Qed.

(** ** Further properties of the arming gate *)

(** X1: [arm] on a disarmed module arms only with no fault and, when
    calibration on arm is enabled, only with the latch already set and
    the calibration complete; it then returns true. *)
Theorem arm_only_when_permitted : forall (rf : ROSflight) (m : Mode),
  _armed m = false ->
  _armed (snd (arm rf m)) = true ->
  _error_code m = ERROR_NONE
  /\ (get_param_int rf PARAM_CALIBRATE_GYRO_ON_ARM = 0
      \/ (started_gyro_calibration m = true
          /\ gyro_calibration_complete rf = true))
  /\ fst (arm rf m) = true.
Proof.
  intros rf m Hdis Harmed. unfold arm in *. rewrite Hdis in *.
  destruct (Z.eqb_spec (_error_code m) ERROR_NONE) as [Hnone | Hfault];
    cbn [negb] in *; [| cbn in Harmed; congruence].
  destruct (Z.eqb_spec (get_param_int rf PARAM_CALIBRATE_GYRO_ON_ARM) 0)
    as [Hoff | Hon]; cbn [negb] in *.
  - cbn. auto.
  - destruct (started_gyro_calibration m); cbn [negb andb] in *;
      [| cbn in Harmed; congruence].
    destruct (gyro_calibration_complete rf); cbn in *; [auto | congruence].
Qed.

(** X2: [arm] never disarms: the module is armed afterwards iff it was
    armed before or [arm] returned true; and [arm] leaves the error code,
    the failsafe flag, both timers and the blink counter as they were. *)
Theorem arm_never_disarms : forall (rf : ROSflight) (m : Mode),
  _armed (snd (arm rf m)) = _armed m || fst (arm rf m)
  /\ _error_code (snd (arm rf m)) = _error_code m
  /\ _failsafe_active (snd (arm rf m)) = _failsafe_active m
  /\ prev_time_ms (snd (arm rf m)) = prev_time_ms m
  /\ time_sticks_have_been_in_arming_position_ms (snd (arm rf m))
     = time_sticks_have_been_in_arming_position_ms m
  /\ count (snd (arm rf m)) = count m.
Proof.
  intros rf m. unfold arm.
  destruct (_armed m) eqn:Harmed, (started_gyro_calibration m) eqn:Hlatch;
    destruct (negb (_error_code m =? ERROR_NONE));
    destruct (negb (get_param_int rf PARAM_CALIBRATE_GYRO_ON_ARM =? 0));
    destruct (gyro_calibration_complete rf);
    cbn; rewrite ?Harmed; repeat split.
Qed.

(** X3: an arming attempt abandoned by [disarm] while the calibration is
    pending leaves the latch set: the next [arm] requests no calibration
    and arms as soon as the calibration of the abandoned attempt is
    complete. *)
Theorem arm_after_abandoned_calibration : forall (rf : ROSflight) (m : Mode),
  _error_code m = ERROR_NONE ->
  get_param_int rf PARAM_CALIBRATE_GYRO_ON_ARM <> 0 ->
  started_gyro_calibration m = true ->
  fst (arm rf (disarm m)) = gyro_calibration_complete rf
  /\ _armed (snd (arm rf (disarm m))) = gyro_calibration_complete rf
  /\ calibration_requests (snd (arm rf (disarm m))) = calibration_requests m.
Proof.
  intros rf m Hnone Hon Hlatch. unfold arm, disarm.
  cbn [_error_code _armed started_gyro_calibration do_call with_armed].
  rewrite Hnone, Hlatch.
  destruct (Z.eqb_spec (get_param_int rf PARAM_CALIBRATE_GYRO_ON_ARM) 0);
    [contradiction |].
  destruct (gyro_calibration_complete rf); cbn; repeat split.
Qed.

(** ** Further properties of the failsafe detector *)

Lemma land_lor_lnot : forall c r,
  Z.land (Z.lor c r) (Z.lnot r) = Z.land c (Z.lnot r).
Proof.
  intros c r. apply Z.bits_inj'. intros n Hn.
  rewrite !Z.land_spec, Z.lor_spec, Z.lnot_spec by exact Hn.
  destruct (Z.testbit c n), (Z.testbit r n); reflexivity.
Qed.

Lemma land_lnot_idem : forall c r,
  Z.land (Z.land c (Z.lnot r)) (Z.lnot r) = Z.land c (Z.lnot r).
Proof.
  intros c r. apply Z.bits_inj'. intros n Hn.
  rewrite !Z.land_spec, Z.lnot_spec by exact Hn.
  destruct (Z.testbit c n), (Z.testbit r n); reflexivity.
Qed.

(** What [check_failsafe] returns is one of its two branches, applied to
    the state with or without [ERROR_RC_LOST] added. *)
Lemma check_failsafe_inv : forall rf m failsafe m',
  check_failsafe rf m = Some (failsafe, m') ->
  (failsafe = true
   /\ (m' = failsafe_on m \/ m' = failsafe_on (set_error_code ERROR_RC_LOST m)))
  \/ (failsafe = false /\ pwm_lost rf = false /\ m' = failsafe_off m).
Proof.
  intros rf m failsafe m' Hrun. unfold check_failsafe in Hrun.
  destruct (pwm_lost rf).
  - injection Hrun as <- <-. left. auto.
  - destruct (rc_channels_loop rc_channels_fuel rf 0 false) as [[|] |];
      [| | discriminate]; injection Hrun as <- <-; [left | right]; auto.
Qed.

(** X4: the link lost in one call and valid in the next: failsafe is
    raised and cleared again, and the error code ends as it was at first
    less [ERROR_RC_LOST]; the other faults are kept and the armed flag is
    not touched. *)
Theorem check_failsafe_recovery : forall (rf0 rf1 : ROSflight) (m : Mode),
  pwm_lost rf0 = true ->
  rc_valid rf1 ->
  exists m1 m2,
    check_failsafe rf0 m = Some (true, m1)
    /\ check_failsafe rf1 m1 = Some (false, m2)
    /\ _failsafe_active m1 = true
    /\ _failsafe_active m2 = false
    /\ _error_code m2 = other_faults m
    /\ _armed m2 = _armed m
    /\ hd_error (calls m2) = Some (if _armed m then led1_on else led1_off).
Proof.
  intros rf0 rf1 m Hlost Hvalid.
  exists (failsafe_on (set_error_code ERROR_RC_LOST m)).
  exists (failsafe_off (failsafe_on (set_error_code ERROR_RC_LOST m))).
  rewrite (check_failsafe_link_lost rf0 m Hlost).
  rewrite (check_failsafe_valid rf1 _ Hvalid).
  destruct (failsafe_on_fields (set_error_code ERROR_RC_LOST m))
    as (Hfs & Hcode & Harmed & _).
  destruct (failsafe_off_fields (failsafe_on (set_error_code ERROR_RC_LOST m)))
    as (Harmed2 & _ & _ & _ & Hcode2).
  split; [reflexivity |]. split; [reflexivity |]. split; [exact Hfs |].
  split; [reflexivity |]. split; [| split].
  - rewrite Hcode2, Hcode. apply land_lor_lnot.
  - now rewrite Harmed2, Harmed.
  - unfold failsafe_off at 1.
    cbn [calls do_call hd_error _armed clear_error_code with_error_code
         with_failsafe_active].
    rewrite Harmed. reflexivity.
Qed.

(** X5: the blink counter does not overflow: after a call that evaluates
    failsafe true it lies in [1, 26], whatever value it had, and a call
    that evaluates failsafe false leaves it as it was. *)
Theorem blink_counter_bounded : forall (rf : ROSflight) (m : Mode) (failsafe : bool) (m' : Mode),
  0 <= count m < 256 ->
  check_failsafe rf m = Some (failsafe, m') ->
  if failsafe then 1 <= count m' <= 26 else count m' = count m.
Proof.
  intros rf m failsafe m' Hrange Hrun.
  destruct (check_failsafe_inv rf m failsafe m' Hrun)
    as [(-> & [-> | ->]) | (-> & _ & ->)].
  - rewrite failsafe_on_count.
    destruct (Z.gtb_spec (count m) 25); rewrite uint8_small; lia.
  - rewrite failsafe_on_count. cbn [count set_error_code with_error_code].
    destruct (Z.gtb_spec (count m) 25); rewrite uint8_small; lia.
  - reflexivity.
Qed.

Lemma check_failsafe_each_app : forall rfs1 rfs2 m,
  check_failsafe_each (rfs1 ++ rfs2) m
  = match check_failsafe_each rfs1 m with
    | Some m1 => check_failsafe_each rfs2 m1
    | None => None
    end.
Proof.
  induction rfs1 as [| rf rfs1 IH]; intros rfs2 m; cbn [check_failsafe_each app].
  - reflexivity.
  - destruct (check_failsafe rf m) as [[failsafe m1] |]; [apply IH | reflexivity].
Qed.

Lemma check_failsafe_each_valid : forall rfs m,
  Forall rc_valid rfs ->
  exists m', check_failsafe_each rfs m = Some m'
             /\ count m' = count m
             /\ toggles m' = toggles m.
Proof.
  induction rfs as [| rf rfs IH]; intros m Hall; cbn [check_failsafe_each].
  - exists m. auto.
  - inversion Hall as [| ? ? Hrf Hrest]; subst.
    rewrite (check_failsafe_valid rf m Hrf).
    destruct (IH (failsafe_off m) Hrest) as (m' & Hrun & Hcount & Htoggles).
    exists m'. split; [exact Hrun |]. split; [exact Hcount |].
    rewrite Htoggles. unfold toggles, failsafe_off. cbn [calls do_call].
    cbn [_armed clear_error_code with_error_code with_failsafe_active].
    destruct (_armed m); apply count_occ_cons_neq; discriminate.
Qed.

(** X6: the blink counter is not reset when failsafe clears: from a
    fresh counter, failsafe cycles interrupted by cycles with a valid link
    toggle the LED as often as the same number of failsafe cycles in a
    row. *)
Theorem blink_counter_survives_recovery :
  forall (before valid after : list ROSflight) (m : Mode),
  count m = 0 ->
  Forall failsafe_input before ->
  Forall rc_valid valid ->
  Forall failsafe_input after ->
  exists m',
    check_failsafe_each (before ++ valid ++ after) m = Some m'
    /\ toggles m' = (toggles m + (length before + length after - 1) / 26)%nat.
Proof.
  intros before valid after m Hfresh Hbefore Hvalid Hafter.
  destruct (check_failsafe_each_blink before m 0 Hfresh Hbefore)
    as (m1 & Hrun1 & Hcount1 & Htoggles1).
  destruct (check_failsafe_each_valid valid m1 Hvalid)
    as (m2 & Hrun2 & Hcount2 & Htoggles2).
  rewrite Hcount1 in Hcount2.
  destruct (check_failsafe_each_blink after m2 _ Hcount2 Hafter)
    as (m3 & Hrun3 & _ & Htoggles3).
  exists m3.
  rewrite check_failsafe_each_app, Hrun1, check_failsafe_each_app, Hrun2.
  split; [exact Hrun3 |].
  cbn [Nat.add] in Htoggles1, Htoggles3.
  change ((0 - 1) / 26)%nat with 0%nat in Htoggles1.
  rewrite Nat.add_0_r in Htoggles1. lia.
Qed.

(** X7: with the link present and more than 127 channels configured the
    [int8_t] counter of the loop wraps around before it reaches the bound:
    the loop is not left, however long it runs, and neither
    [check_failsafe] nor a call of [update_state] past the rate limit
    returns. *)
Theorem check_failsafe_diverges : forall (rf : ROSflight) (m : Mode),
  pwm_lost rf = false ->
  127 < get_param_int rf PARAM_RC_NUM_CHANNELS ->
  (forall fuel, rc_channels_loop fuel rf 0 false = None)
  /\ check_failsafe rf m = None
  /\ (20 <= uint32 (clock_millis rf - prev_time_ms m) -> update_state rf m = None).
Proof.
  intros rf m Hlink Hmany.
  assert (Hloop : forall fuel, rc_channels_loop fuel rf 0 false = None).
  { intros fuel. apply rc_channels_loop_diverges; [exact Hmany | lia]. }
  assert (Hcheck : forall m0, check_failsafe rf m0 = None).
  { intros m0. unfold check_failsafe. now rewrite Hlink, Hloop. }
  split; [exact Hloop |]. split; [apply Hcheck |].
  intros Hdt. unfold update_state.
  destruct (Z.ltb_spec (uint32 (clock_millis rf - prev_time_ms m)) 20); [lia |].
  now rewrite Hcheck.
Qed.

(** ** Further properties of the state update *)

Lemma update_state_early : forall rf m,
  uint32 (clock_millis rf - prev_time_ms m) < 20 ->
  update_state rf m = Some (false, m).
Proof.
  intros rf m Hdt. unfold update_state.
  destruct (Z.ltb_spec (uint32 (clock_millis rf - prev_time_ms m)) 20);
    [reflexivity | lia].
Qed.

Lemma update_state_failsafe_epoch : forall rf m,
  20 <= uint32 (clock_millis rf - prev_time_ms m) ->
  failsafe_input rf ->
  exists m1,
    update_state rf m = Some (true, failsafe_on m1)
    /\ (m1 = with_prev_time_ms (clock_millis rf) m
        \/ m1 = set_error_code ERROR_RC_LOST
                  (with_prev_time_ms (clock_millis rf) m)).
Proof.
  intros rf m Hdt Hfs. unfold update_state.
  destruct (Z.ltb_spec (uint32 (clock_millis rf - prev_time_ms m)) 20); [lia |].
  destruct Hfs as [Hlost | Hbad].
  - rewrite (check_failsafe_link_lost rf _ Hlost). eauto.
  - rewrite (check_failsafe_channel rf _ Hbad). eauto.
Qed.

Lemma failsafe_off_calls : forall m,
  calls (failsafe_off m) = (if _armed m then led1_on else led1_off) :: calls m.
Proof. reflexivity. Qed.

Lemma arm_straight_away : forall rf m,
  _error_code m = ERROR_NONE ->
  get_param_int rf PARAM_CALIBRATE_GYRO_ON_ARM = 0 ->
  _armed m = false ->
  arm rf m = (true, do_call led1_on (with_armed true m)).
Proof.
  intros rf m Hnone Hoff Hdis. unfold arm. now rewrite Hnone, Hoff, Hdis.
Qed.

(** The first steps of a processed epoch with a valid link: past the rate
    limit, [check_failsafe] evaluates false. *)
Ltac valid_epoch rf m Hvalid :=
  unfold update_state;
  destruct (Z.ltb_spec (uint32 (clock_millis rf - prev_time_ms m)) 20) as [? | _];
  [lia |];
  rewrite (check_failsafe_valid rf _ Hvalid); cbv zeta;
  let Ha := fresh "Ha1" in
  let Ht := fresh "Ht1" in
  let Hp := fresh "Hp1" in
  let Hs := fresh "Hs1" in
  let He := fresh "He1" in
  destruct (failsafe_off_fields (with_prev_time_ms (clock_millis rf) m))
    as (Ha & Ht & Hp & Hs & He);
  cbn [_armed time_sticks_have_been_in_arming_position_ms prev_time_ms
       started_gyro_calibration _error_code with_prev_time_ms]
    in Ha, Ht, Hp, Hs, He.

(** X8: failsafe pre-empts the arming logic: a processed epoch in which
    failsafe is evaluated true leaves the armed flag, the calibration
    latch and the hold timer as they were and calls neither [arm] nor
    [disarm], whatever the sticks and the arming switch say; at most the
    LED is toggled. *)
Theorem update_state_failsafe_preempts : forall (rf : ROSflight) (m : Mode),
  20 <= uint32 (clock_millis rf - prev_time_ms m) ->
  failsafe_input rf ->
  exists m',
    update_state rf m = Some (true, m')
    /\ _failsafe_active m' = true
    /\ _armed m' = _armed m
    /\ started_gyro_calibration m' = started_gyro_calibration m
    /\ time_sticks_have_been_in_arming_position_ms m'
       = time_sticks_have_been_in_arming_position_ms m
    /\ (calls m' = calls m \/ calls m' = led1_toggle :: calls m).
Proof.
  intros rf m Hdt Hfs.
  destruct (update_state_failsafe_epoch rf m Hdt Hfs) as (m1 & Hrun & Hm1).
  exists (failsafe_on m1). split; [exact Hrun |].
  destruct (failsafe_on_fields m1) as (Hactive & _ & Harmed & Hlatch & _ & Htime).
  rewrite Hactive, Harmed, Hlatch, Htime, failsafe_on_calls.
  assert (Hsame : _armed m1 = _armed m
                  /\ started_gyro_calibration m1 = started_gyro_calibration m
                  /\ time_sticks_have_been_in_arming_position_ms m1
                     = time_sticks_have_been_in_arming_position_ms m
                  /\ calls m1 = calls m)
    by (destruct Hm1 as [-> | ->]; cbn; auto).
  destruct Hsame as (-> & -> & -> & ->).
  repeat split. destruct (count m1 >? 25); auto.
Qed.

(** X9: with the arming switch mapped and off, a processed epoch with a
    valid link disarms, whatever the state: armed or not, with or
    without faults, with a calibration pending or not. *)
Theorem switch_off_disarms : forall (rf : ROSflight) (m : Mode),
  20 <= uint32 (clock_millis rf - prev_time_ms m) ->
  rc_valid rf ->
  rc_switch_mapped rf RC_SWITCH_ARM = true ->
  rc_switch rf RC_SWITCH_ARM = false ->
  exists m',
    update_state rf m = Some (true, m')
    /\ _armed m' = false
    /\ hd_error (calls m') = Some led1_off.
Proof.
  intros rf m Hdt Hvalid Hmapped Hoff.
  valid_epoch rf m Hvalid. rewrite Hmapped, Hoff. cbn [negb].
  eexists. split; [reflexivity |]. split; reflexivity.
Qed.

(** X10: with the arming switch mapped and on, no calibration on arm and
    no fault other than [ERROR_RC_LOST], one processed epoch with a valid
    link leaves the module armed: [ERROR_RC_LOST] is cleared before [arm]
    looks at the error code. *)
Theorem switch_on_arms : forall (rf : ROSflight) (m : Mode),
  20 <= uint32 (clock_millis rf - prev_time_ms m) ->
  rc_valid rf ->
  rc_switch_mapped rf RC_SWITCH_ARM = true ->
  rc_switch rf RC_SWITCH_ARM = true ->
  get_param_int rf PARAM_CALIBRATE_GYRO_ON_ARM = 0 ->
  other_faults m = ERROR_NONE ->
  exists m',
    update_state rf m = Some (true, m')
    /\ _armed m' = true
    /\ _error_code m' = ERROR_NONE.
Proof.
  intros rf m Hdt Hvalid Hmapped Hon Hcal Hnone.
  valid_epoch rf m Hvalid. rewrite Hmapped, Hon. cbn [negb].
  unfold other_faults in Hnone. rewrite Hnone in He1.
  set (m1 := failsafe_off (with_prev_time_ms (clock_millis rf) m)) in *.
  destruct (_armed m1) eqn:Harmed; cbn [negb].
  - eexists. split; [reflexivity |]. auto.
  - rewrite (arm_straight_away rf m1 He1 Hcal Harmed).
    eexists. split; [reflexivity |]. cbn. auto.
Qed.

Lemma update_state_fault_step :
  forall (rf : ROSflight) (m : Mode) (r : bool) (m' : Mode),
  other_faults m <> ERROR_NONE ->
  _armed m = false ->
  update_state rf m = Some (r, m') ->
  _armed m' = false.
Proof.
  intros rf m r m' Hfault Hdis Hrun. unfold update_state in Hrun.
  destruct (uint32 (clock_millis rf - prev_time_ms m) <? 20);
    [injection Hrun as <- <-; exact Hdis |].
  destruct (check_failsafe rf (with_prev_time_ms (clock_millis rf) m))
    as [[failsafe m1] |] eqn:Hfs; [| discriminate].
  pose proof (check_failsafe_frame _ _ _ _ Hfs) as (Harmed & _).
  cbn [_armed with_prev_time_ms] in Harmed. rewrite Hdis in Harmed.
  destruct (check_failsafe_inv _ _ _ _ Hfs) as [(-> & _) | (-> & _ & Hm1)].
  - injection Hrun as <- <-. exact Harmed.
  - assert (Hcode : _error_code m1 <> ERROR_NONE).
    { rewrite Hm1.
      now destruct (failsafe_off_fields (with_prev_time_ms (clock_millis rf) m))
        as (_ & _ & _ & _ & ->). }
    cbv zeta in Hrun. rewrite Harmed in Hrun. cbn [negb] in Hrun.
    destruct (negb (rc_switch_mapped rf RC_SWITCH_ARM)).
    + destruct (sticks_in_arming_position rf);
        match type of Hrun with
        | context [if ?c then _ else _] => destruct c
        end;
        try rewrite arm_fault in Hrun by exact Hcode;
        injection Hrun as <- <-; exact Harmed.
    + destruct (rc_switch rf RC_SWITCH_ARM).
      * rewrite arm_fault in Hrun by exact Hcode.
        injection Hrun as <- <-. exact Harmed.
      * injection Hrun as <- <-. reflexivity.
Qed.

Lemma update_state_other_faults_step :
  forall (rf : ROSflight) (m : Mode) (r : bool) (m' : Mode),
  update_state rf m = Some (r, m') ->
  other_faults m' = other_faults m.
Proof.
  intros rf m r m' Hrun. unfold update_state in Hrun.
  destruct (uint32 (clock_millis rf - prev_time_ms m) <? 20);
    [injection Hrun as <- <-; reflexivity |].
  destruct (check_failsafe rf (with_prev_time_ms (clock_millis rf) m))
    as [[failsafe m1] |] eqn:Hfs; [| discriminate].
  assert (Hm1 : other_faults m1 = other_faults m).
  { unfold other_faults.
    destruct (check_failsafe_inv _ _ _ _ Hfs) as [(_ & [-> | ->]) | (_ & _ & ->)].
    - now destruct (failsafe_on_fields (with_prev_time_ms (clock_millis rf) m))
        as (_ & -> & _).
    - destruct (failsafe_on_fields
                  (set_error_code ERROR_RC_LOST
                     (with_prev_time_ms (clock_millis rf) m))) as (_ & -> & _).
      cbn. apply land_lor_lnot.
    - destruct (failsafe_off_fields (with_prev_time_ms (clock_millis rf) m))
        as (_ & _ & _ & _ & ->).
      cbn. apply land_lnot_idem. }
  rewrite <- Hm1. clear Hm1 Hfs. unfold other_faults.
  destruct failsafe; [injection Hrun as <- <-; reflexivity |].
  cbv zeta in Hrun.
  destruct (negb (rc_switch_mapped rf RC_SWITCH_ARM)).
  - destruct (negb (_armed m1)).
    + destruct (sticks_in_arming_position rf);
        match type of Hrun with
        | context [if ?c then _ else _] => destruct c
        end;
        try match type of Hrun with
            | context [arm rf ?m2] =>
                pose proof (arm_frame rf m2) as (_ & _ & Hcode & _);
                destruct (arm rf m2) as [[|] m3]
            end;
        injection Hrun as <- <-; cbn in *; congruence.
    + destruct (sticks_in_disarming_position rf);
        match type of Hrun with
        | context [if ?c then _ else _] => destruct c
        end;
        injection Hrun as <- <-; reflexivity.
  - destruct (rc_switch rf RC_SWITCH_ARM).
    + destruct (negb (_armed m1)); injection Hrun as <- <-; [| reflexivity].
      now destruct (arm_frame rf m1) as (_ & _ & -> & _).
    + injection Hrun as <- <-. reflexivity.
Qed.

(** X11: while a fault other than [ERROR_RC_LOST] is active, no sequence
    of calls of [update_state] arms a disarmed module, whatever the
    sticks, the switch, the link and the clock do. *)
Theorem update_state_fault_blocks_arming :
  forall (rfs : list ROSflight) (m : Mode) (rs : list bool) (m' : Mode),
  other_faults m <> ERROR_NONE ->
  _armed m = false ->
  update_state_each rfs m = Some (rs, m') ->
  _armed m' = false.
Proof.
  induction rfs as [| rf rfs IH]; intros m rs m' Hfault Hdis Hrun;
    cbn [update_state_each] in Hrun.
  - injection Hrun as <- <-. exact Hdis.
  - destruct (update_state rf m) as [[r m1] |] eqn:Hstep; [| discriminate].
    destruct (update_state_each rfs m1) as [[rs1 m2] |] eqn:Hrest; [| discriminate].
    injection Hrun as <- <-.
    apply (IH m1 rs1 m2); [| | exact Hrest].
    + now rewrite (update_state_other_faults_step rf m r m1 Hstep).
    + exact (update_state_fault_step rf m r m1 Hfault Hdis Hstep).
Qed.

(** X12: no sequence of calls of [update_state] changes a flag of the
    error code other than [ERROR_RC_LOST]. *)
Theorem update_state_keeps_other_faults :
  forall (rfs : list ROSflight) (m : Mode) (rs : list bool) (m' : Mode),
  update_state_each rfs m = Some (rs, m') ->
  other_faults m' = other_faults m.
Proof.
  induction rfs as [| rf rfs IH]; intros m rs m' Hrun;
    cbn [update_state_each] in Hrun.
  - injection Hrun as <- <-. reflexivity.
  - destruct (update_state rf m) as [[r m1] |] eqn:Hstep; [| discriminate].
    destruct (update_state_each rfs m1) as [[rs1 m2] |] eqn:Hrest; [| discriminate].
    injection Hrun as <- <-.
    rewrite (IH m1 rs1 m2 Hrest).
    exact (update_state_other_faults_step rf m r m1 Hstep).
Qed.

(** X13: with no arming switch mapped, a call of [update_state] arms a
    disarmed module only in a processed epoch in which the sticks are in
    the arming position and the hold time, this epoch included, exceeds
    500 ms; the hold timer is then back at zero. *)
Theorem gesture_arms_only_after_hold :
  forall (rf : ROSflight) (m : Mode) (r : bool) (m' : Mode),
  rc_switch_mapped rf RC_SWITCH_ARM = false ->
  _armed m = false ->
  update_state rf m = Some (r, m') ->
  _armed m' = true ->
  r = true
  /\ sticks_in_arming_position rf = true
  /\ 500 < uint32 (time_sticks_have_been_in_arming_position_ms m
                   + uint32 (clock_millis rf - prev_time_ms m))
  /\ time_sticks_have_been_in_arming_position_ms m' = 0.
Proof.
  intros rf m r m' Hsw Hdis Hrun Harmed'. unfold update_state in Hrun.
  destruct (uint32 (clock_millis rf - prev_time_ms m) <? 20);
    [injection Hrun as <- <-; congruence |].
  destruct (check_failsafe rf (with_prev_time_ms (clock_millis rf) m))
    as [[failsafe m1] |] eqn:Hfs; [| discriminate].
  pose proof (check_failsafe_frame _ _ _ _ Hfs) as (Harmed & _ & _ & Htime).
  cbn [_armed time_sticks_have_been_in_arming_position_ms with_prev_time_ms]
    in Harmed, Htime.
  rewrite Hdis in Harmed.
  destruct failsafe; [injection Hrun as <- <-; congruence |].
  cbv zeta in Hrun. rewrite Hsw, Harmed in Hrun. cbn [negb] in Hrun.
  destruct (sticks_in_arming_position rf).
  - cbn [time_sticks_have_been_in_arming_position_ms with_time_sticks] in Hrun.
    rewrite Htime in Hrun.
    destruct (Z.gtb_spec
                (uint32 (time_sticks_have_been_in_arming_position_ms m
                         + uint32 (clock_millis rf - prev_time_ms m))) 500)
      as [Hheld | _].
    + match type of Hrun with
      | context [arm rf ?m2] =>
          pose proof (arm_frame rf m2) as (_ & _ & _ & _ & Hsame);
          destruct (arm rf m2) as [[|] m3]
      end; injection Hrun as <- <-.
      * cbn. auto.
      * cbn in Hsame. rewrite Hsame in Harmed' by reflexivity. congruence.
    + injection Hrun as <- <-. cbn in Harmed'. congruence.
  - cbn [time_sticks_have_been_in_arming_position_ms with_time_sticks] in Hrun.
    change (0 >? 500) with false in Hrun.
    injection Hrun as <- <-. cbn in Harmed'. congruence.
Qed.

(** X14: with no arming switch mapped, no calibration on arm and no
    fault other than [ERROR_RC_LOST], a processed epoch with the sticks in
    the arming position arms as soon as the hold time exceeds 500 ms; the
    time added is the time since the last processed call, so that one call
    more than 500 ms after it arms at once. *)
Theorem gesture_arms_when_held : forall (rf : ROSflight) (m : Mode),
  20 <= uint32 (clock_millis rf - prev_time_ms m) ->
  rc_valid rf ->
  rc_switch_mapped rf RC_SWITCH_ARM = false ->
  get_param_int rf PARAM_CALIBRATE_GYRO_ON_ARM = 0 ->
  other_faults m = ERROR_NONE ->
  _armed m = false ->
  sticks_in_arming_position rf = true ->
  500 < uint32 (time_sticks_have_been_in_arming_position_ms m
                + uint32 (clock_millis rf - prev_time_ms m)) ->
  exists m',
    update_state rf m = Some (true, m')
    /\ _armed m' = true
    /\ time_sticks_have_been_in_arming_position_ms m' = 0
    /\ hd_error (calls m') = Some led1_on.
Proof.
  intros rf m Hdt Hvalid Hsw Hcal Hnone Hdis Hpos Hheld.
  valid_epoch rf m Hvalid. rewrite Hsw, Ha1, Hdis, Hpos, Ht1. cbn [negb].
  unfold other_faults in Hnone. rewrite Hnone in He1.
  cbn [time_sticks_have_been_in_arming_position_ms with_time_sticks].
  destruct (Z.gtb_spec
              (uint32 (time_sticks_have_been_in_arming_position_ms m
                       + uint32 (clock_millis rf - prev_time_ms m))) 500);
    [| lia].
  rewrite arm_straight_away; [| exact He1 | exact Hcal | now rewrite <- Hdis].
  eexists. split; [reflexivity |]. cbn. auto.
Qed.

(** X15: with no arming switch mapped, a processed epoch with the sticks
    in the arming position and a hold time of at most 500 ms only adds the
    time since the last processed call to the hold timer. *)
Theorem gesture_hold_accumulates : forall (rf : ROSflight) (m : Mode),
  20 <= uint32 (clock_millis rf - prev_time_ms m) ->
  rc_valid rf ->
  rc_switch_mapped rf RC_SWITCH_ARM = false ->
  _armed m = false ->
  sticks_in_arming_position rf = true ->
  uint32 (time_sticks_have_been_in_arming_position_ms m
          + uint32 (clock_millis rf - prev_time_ms m)) <= 500 ->
  exists m',
    update_state rf m = Some (true, m')
    /\ _armed m' = false
    /\ time_sticks_have_been_in_arming_position_ms m'
       = uint32 (time_sticks_have_been_in_arming_position_ms m
                 + uint32 (clock_millis rf - prev_time_ms m))
    /\ calls m' = led1_off :: calls m.
Proof.
  intros rf m Hdt Hvalid Hsw Hdis Hpos Hshort.
  valid_epoch rf m Hvalid. rewrite Hsw, Ha1, Hdis, Hpos, Ht1. cbn [negb].
  cbn [time_sticks_have_been_in_arming_position_ms with_time_sticks].
  destruct (Z.gtb_spec
              (uint32 (time_sticks_have_been_in_arming_position_ms m
                       + uint32 (clock_millis rf - prev_time_ms m))) 500);
    [lia |].
  eexists. split; [reflexivity |].
  cbn [_armed time_sticks_have_been_in_arming_position_ms calls with_time_sticks].
  rewrite Ha1, failsafe_off_calls. cbn [_armed with_prev_time_ms calls].
  rewrite Hdis. auto.
Qed.

(** X16: with no arming switch mapped, the disarming gesture held for
    more than 500 ms disarms an armed module whatever faults are
    active. *)
Theorem gesture_disarm_ignores_faults : forall (rf : ROSflight) (m : Mode),
  20 <= uint32 (clock_millis rf - prev_time_ms m) ->
  rc_valid rf ->
  rc_switch_mapped rf RC_SWITCH_ARM = false ->
  _armed m = true ->
  sticks_in_disarming_position rf = true ->
  500 < uint32 (time_sticks_have_been_in_arming_position_ms m
                + uint32 (clock_millis rf - prev_time_ms m)) ->
  exists m',
    update_state rf m = Some (true, m')
    /\ _armed m' = false
    /\ time_sticks_have_been_in_arming_position_ms m' = 0
    /\ hd_error (calls m') = Some led1_off.
Proof.
  intros rf m Hdt Hvalid Hsw Harmed Hpos Hheld.
  valid_epoch rf m Hvalid. rewrite Hsw, Ha1, Harmed, Hpos, Ht1. cbn [negb].
  cbn [time_sticks_have_been_in_arming_position_ms with_time_sticks].
  destruct (Z.gtb_spec
              (uint32 (time_sticks_have_been_in_arming_position_ms m
                       + uint32 (clock_millis rf - prev_time_ms m))) 500);
    [| lia].
  eexists. split; [reflexivity |]. cbn. auto.
Qed.

(** X17: the rate limit works across a wrap-around of the millisecond
    clock: a call [d] ms after the last processed one, with [d] below
    2^32, is processed iff [d] is at least 20, also when the clock has
    wrapped around in between. *)
Theorem rate_limit_wraparound : forall (rf : ROSflight) (m : Mode) (d : Z),
  0 <= prev_time_ms m < 2 ^ 32 ->
  0 <= d < 2 ^ 32 ->
  clock_millis rf = uint32 (prev_time_ms m + d) ->
  uint32 (clock_millis rf - prev_time_ms m) = d
  /\ (d < 20 -> update_state rf m = Some (false, m))
  /\ (20 <= d ->
      forall r m', update_state rf m = Some (r, m') ->
                   r = true /\ prev_time_ms m' = clock_millis rf).
Proof.
  intros rf m d Hprev Hd Hclock.
  assert (Hdt : uint32 (clock_millis rf - prev_time_ms m) = d).
  { rewrite Hclock. unfold uint32.
    rewrite Zminus_mod_idemp_l.
    replace (prev_time_ms m + d - prev_time_ms m) with d by lia.
    now apply Z.mod_small. }
  split; [exact Hdt |]. split.
  - intros Hearly. apply update_state_early. lia.
  - intros Hlate r m' Hrun.
    apply (update_state_processed rf m r m'); [lia | exact Hrun].
Qed.

(** X18: calls of [update_state] that all come less than 20 ms after the
    last processed one return false and leave the state as it was,
    however many they are. *)
Theorem update_state_burst : forall (rfs : list ROSflight) (m : Mode),
  Forall (fun rf => uint32 (clock_millis rf - prev_time_ms m) < 20) rfs ->
  update_state_each rfs m = Some (repeat false (length rfs), m).
Proof.
  intros rfs m Hall.
  induction Hall as [| rf rfs Hrf _ IH]; cbn [update_state_each length repeat].
  - reflexivity.
  - now rewrite (update_state_early rf m Hrf), IH.
Qed.

Lemma arm_led1 : forall rf m,
  (forall led, led1_after led (calls m) = _armed m) ->
  forall led, led1_after led (calls (snd (arm rf m))) = _armed (snd (arm rf m)).
Proof.
  intros rf m Hled led. unfold arm.
  destruct (negb (_error_code m =? ERROR_NONE));
    [| destruct (negb (get_param_int rf PARAM_CALIBRATE_GYRO_ON_ARM =? 0));
       [destruct (negb (started_gyro_calibration m) && negb (_armed m));
          [| destruct (gyro_calibration_complete rf)]
       | destruct (negb (_armed m))]];
    cbn; auto.
Qed.

(** X19: after every processed epoch with a valid link the LED shows the
    armed flag: the last of the calls [led1_on], [led1_off] made is
    [led1_on] iff the module is armed. *)
Theorem led1_shows_armed : forall (rf : ROSflight) (m : Mode),
  20 <= uint32 (clock_millis rf - prev_time_ms m) ->
  rc_valid rf ->
  exists m',
    update_state rf m = Some (true, m')
    /\ forall led : bool, led1_after led (calls m') = _armed m'.
Proof.
  intros rf m Hdt Hvalid. valid_epoch rf m Hvalid.
  set (m1 := failsafe_off (with_prev_time_ms (clock_millis rf) m)) in *.
  assert (Hm1 : forall led, led1_after led (calls m1) = _armed m1).
  { intros led. subst m1. rewrite failsafe_off_calls, Ha1.
    cbn [_armed with_prev_time_ms]. now destruct (_armed m). }
  clearbody m1.
  assert (Htimer : forall t led,
             led1_after led (calls (snd (arm rf (with_time_sticks t m1))))
             = _armed (snd (arm rf (with_time_sticks t m1)))).
  { intros t led. apply arm_led1. intros led'. exact (Hm1 led'). }
  destruct (negb (rc_switch_mapped rf RC_SWITCH_ARM)).
  - destruct (negb (_armed m1)).
    + destruct (sticks_in_arming_position rf);
        match goal with
        | |- context [if ?c then _ else _] => destruct c
        end;
        try match goal with
            | |- context [arm rf (with_time_sticks ?t m1)] =>
                pose proof (Htimer t) as Harm;
                destruct (arm rf (with_time_sticks t m1)) as [[|] m3]
            end;
        (eexists; split; [reflexivity |]); intros led; cbn in *; auto.
    + destruct (sticks_in_disarming_position rf);
        match goal with
        | |- context [if ?c then _ else _] => destruct c
        end;
        (eexists; split; [reflexivity |]); intros led; cbn; auto.
  - destruct (rc_switch rf RC_SWITCH_ARM).
    + destruct (negb (_armed m1)); (eexists; split; [reflexivity |]);
        [apply arm_led1 |]; exact Hm1.
    + eexists. split; [reflexivity |]. reflexivity.
Qed.

(** X20: a stick or a threshold that reads NaN is no gesture: with no
    arming switch mapped, a processed epoch with a valid link resets the
    hold timer and leaves the armed flag as it was. *)
Theorem gesture_nan_resets : forall (rf : ROSflight) (m : Mode),
  20 <= uint32 (clock_millis rf - prev_time_ms m) ->
  rc_valid rf ->
  rc_switch_mapped rf RC_SWITCH_ARM = false ->
  rc_stick rf RC_STICK_F = S754_nan
  \/ rc_stick rf RC_STICK_Z = S754_nan
  \/ get_param_float rf PARAM_ARM_THRESHOLD = S754_nan ->
  exists m',
    update_state rf m = Some (true, m')
    /\ time_sticks_have_been_in_arming_position_ms m' = 0
    /\ _armed m' = _armed m.
Proof.
  intros rf m Hdt Hvalid Hsw Hnan.
  assert (Hpos : sticks_in_arming_position rf = false
                 /\ sticks_in_disarming_position rf = false).
  { unfold sticks_in_arming_position, sticks_in_disarming_position,
      F32.ltb, F32.gtb, F32.sub, F32.opp.
    destruct Hnan as [-> | [-> | ->]].
    - split; reflexivity.
    - split; apply andb_false_iff; right.
      + unfold SFltb, SFcompare.
        now destruct (SFsub F32.prec F32.emax F32.one
                        (get_param_float rf PARAM_ARM_THRESHOLD)).
      + reflexivity.
    - split; apply andb_false_iff; left; unfold SFltb, SFcompare;
        now destruct (rc_stick rf RC_STICK_F). }
  destruct Hpos as (Harming & Hdisarming).
  valid_epoch rf m Hvalid. rewrite Hsw, Harming, Hdisarming. cbn [negb].
  destruct (negb (_armed (failsafe_off (with_prev_time_ms (clock_millis rf) m))));
    cbn [time_sticks_have_been_in_arming_position_ms with_time_sticks];
    change (0 >? 500) with false; cbv iota;
    (eexists; split; [reflexivity |]); cbn; auto.
Qed.

End ModeFunctions.

(** ** The properties on concrete runs *)

(** [arm] under the fault of [mode_fault], once and three times. *)
Lemma arm_refused_under_fault_witness :
  _error_code mode_fault <> ERROR_NONE
  /\ arm (rf_idle 1 true 0) mode_fault = (false, mode_fault)
  /\ arm_each [rf_idle 0 false 0; rf_idle 1 true 20; rf_arm_gesture 40] mode_fault
     = ([false; false; false], mode_fault).
Proof.
  assert (Hfault : _error_code mode_fault <> ERROR_NONE) by (cbn; discriminate).
  split; [exact Hfault |].
  exact (arm_refused_under_fault mode_fault (rf_idle 1 true 0)
           [rf_idle 0 false 0; rf_idle 1 true 20; rf_arm_gesture 40] Hfault).
Defined.

(** An arming attempt with calibration: the request, two polls, the
    completion. *)
Lemma arm_after_calibration_witness :
  let m1 := with_started_gyro_calibration true
              (do_call start_gyro_calibration Mode_new) in
  let m2 := do_call led1_on
              (with_armed true (with_started_gyro_calibration false m1)) in
  arm (rf_idle 1 false 0) Mode_new = (false, m1)
  /\ arm_each [rf_idle 1 false 20; rf_idle 1 false 40] m1 = ([false; false], m1)
  /\ arm (rf_idle 1 true 60) m1 = (true, m2)
  /\ calls m2 = [led1_on; start_gyro_calibration]
  /\ calibration_requests m2 = 1%nat
  /\ _armed m2 = true
  /\ started_gyro_calibration m2 = false.
Proof.
  apply (arm_after_calibration Mode_new (rf_idle 1 false 0)
           [rf_idle 1 false 20; rf_idle 1 false 40] (rf_idle 1 true 60)).
  - reflexivity.
  - reflexivity.
  - reflexivity.
  - cbn. discriminate.
  - repeat constructor; cbn; discriminate.
  - cbn. discriminate.
  - reflexivity.
Defined.


Lemma rf_link_lost_failsafe_input : forall now, failsafe_input (rf_link_lost now).
Proof. intros now. left. reflexivity. Qed.

Lemma rf_bad_channel_channel_failsafe : forall now, channel_failsafe (rf_bad_channel now).
Proof.
  intros now. split; [reflexivity |]. split.
  - unfold channels_reachable. cbn. lia.
  - exists 3. split; [cbn; lia |]. right. cbn. lia.
Qed.

Lemma rf_idle_rc_valid : forall calibrate complete now,
  rc_valid (rf_idle calibrate complete now).
Proof.
  intros calibrate complete now. split; [reflexivity |]. split.
  - unfold channels_reachable. cbn. lia.
  - intros i _. cbn. lia.
Qed.

Lemma rf_arm_gesture_rc_valid : forall now, rc_valid (rf_arm_gesture now).
Proof.
  intros now. split; [reflexivity |]. split.
  - unfold channels_reachable. cbn. lia.
  - intros i _. cbn. lia.
Qed.





(** C6, as stated, fails: a processed epoch with the link lost and the
    sticks released leaves the hold timer at its 300 ms. *)
Lemma held_timer_reset_counterexample :
  ~ (forall m',
       update_state sample_ERROR_RC_LOST (rf_link_lost 1020) mode_cal_pending
       = Some (true, m') ->
       gesture_held (rf_link_lost 1020) mode_cal_pending = false ->
       time_sticks_have_been_in_arming_position_ms m' = 0).
Proof.
  intros Hreset. specialize (Hreset _ eq_refl eq_refl). discriminate Hreset.
Qed.

(** Sticks released after 300 ms of hold: the timer is reset with a valid
    link and kept with the link lost. *)
Lemma held_timer_reset_witness :
  (exists m', update_state sample_ERROR_RC_LOST (rf_idle 0 false 1020) mode_cal_pending
              = Some (true, m')
              /\ (gesture_held (rf_idle 0 false 1020) mode_cal_pending = false ->
                  time_sticks_have_been_in_arming_position_ms m' = 0)
              /\ (_armed m' <> _armed mode_cal_pending ->
                  time_sticks_have_been_in_arming_position_ms m' = 0))
  /\ (exists m', update_state sample_ERROR_RC_LOST (rf_link_lost 1020) mode_cal_pending
                 = Some (true, m')
                 /\ time_sticks_have_been_in_arming_position_ms m'
                    = time_sticks_have_been_in_arming_position_ms mode_cal_pending
                 /\ _armed m' = _armed mode_cal_pending).
Proof.
  split.
  - apply (proj1 (held_timer_reset sample_ERROR_RC_LOST (rf_idle 0 false 1020)
                    mode_cal_pending ltac:(vm_compute; discriminate))).
    + apply rf_idle_rc_valid.
    + reflexivity.
  - apply (proj2 (held_timer_reset sample_ERROR_RC_LOST (rf_link_lost 1020)
                    mode_cal_pending ltac:(vm_compute; discriminate))).
    apply rf_link_lost_failsafe_input.
Defined.

(** C8, as stated, fails: from a fresh counter the 26th consecutive
    failsafe cycle does not toggle the LED. *)
Lemma failsafe_blink_counterexample :
  ~ (exists m25 m26,
       check_failsafe_each sample_ERROR_RC_LOST (repeat (rf_link_lost 0) 25) Mode_new
       = Some m25
       /\ check_failsafe_each sample_ERROR_RC_LOST (repeat (rf_link_lost 0) 26) Mode_new
          = Some m26
       /\ toggles m26 = S (toggles m25)).
Proof.
  intros (m25 & m26 & H25 & H26 & Htoggle).
  vm_compute in H25, H26.
  injection H25 as <-. injection H26 as <-.
  vm_compute in Htoggle. discriminate Htoggle.
Qed.

(** One failsafe cycle and thirty of them from a fresh counter. *)
Lemma failsafe_blink_witness :
  (exists m', check_failsafe sample_ERROR_RC_LOST (rf_bad_channel 0) Mode_new
              = Some (true, m')
              /\ if count Mode_new >? 25
                 then calls m' = led1_toggle :: calls Mode_new /\ count m' = 1
                 else calls m' = calls Mode_new
                      /\ count m' = uint8 (count Mode_new + 1))
  /\ (exists m', check_failsafe_each sample_ERROR_RC_LOST
                   (repeat (rf_link_lost 0) 30) Mode_new = Some m'
                 /\ toggles m'
                    = (toggles Mode_new
                       + (length (repeat (rf_link_lost 0) 30) - 1) / 26)%nat
                 /\ count m' = blink_count (length (repeat (rf_link_lost 0) 30))).
Proof.
  assert (Hall : Forall failsafe_input (repeat (rf_link_lost 0) 30)).
  { apply Forall_forall. intros rf Hin. apply repeat_spec in Hin. subst rf.
    apply rf_link_lost_failsafe_input. }
  destruct (failsafe_blink sample_ERROR_RC_LOST (rf_bad_channel 0)
              (repeat (rf_link_lost 0) 30) Mode_new
              (or_intror (rf_bad_channel_channel_failsafe 0)) Hall)
    as [Hone Hrun].
  split; [exact Hone | exact (Hrun eq_refl)].
Defined.

(** Scenario A: thirty epochs with the link lost toggle the LED once, in
    epoch 27. *)
Example link_lost_30_epochs :
  option_map toggles
    (check_failsafe_each sample_ERROR_RC_LOST (repeat (rf_link_lost 0) 26) Mode_new)
  = Some 0%nat
  /\ option_map toggles
       (check_failsafe_each sample_ERROR_RC_LOST (repeat (rf_link_lost 0) 27) Mode_new)
     = Some 1%nat
  /\ option_map toggles
       (check_failsafe_each sample_ERROR_RC_LOST (repeat (rf_link_lost 0) 30) Mode_new)
     = Some 1%nat.
Proof. repeat split; vm_compute; reflexivity. Qed.

(** The link lost once, then present with channel 3 out of range. *)
Lemma rc_lost_persists_witness :
  exists m1,
    check_failsafe sample_ERROR_RC_LOST (rf_link_lost 0) Mode_new = Some (true, m1)
    /\ error_is_set sample_ERROR_RC_LOST m1
    /\ (forall k : nat, exists mk,
          check_failsafe_each sample_ERROR_RC_LOST
            (firstn k [rf_bad_channel 20; rf_bad_channel 40; rf_bad_channel 60]) m1
          = Some mk
          /\ error_is_set sample_ERROR_RC_LOST mk
          /\ _failsafe_active mk = true)
    /\ (forall rf mk failsafe mk',
          check_failsafe sample_ERROR_RC_LOST rf mk = Some (failsafe, mk') ->
          error_is_set sample_ERROR_RC_LOST mk ->
          ~ error_is_set sample_ERROR_RC_LOST mk' ->
          failsafe = false).
Proof.
  apply (rc_lost_persists sample_ERROR_RC_LOST (rf_link_lost 0)
           [rf_bad_channel 20; rf_bad_channel 40; rf_bad_channel 60] Mode_new).
  - reflexivity.
  - repeat constructor; apply rf_bad_channel_channel_failsafe.
Defined.

Lemma gesture_arming_input_sample :
  gesture_arming_input 1000 (fun k => rf_arm_gesture (uint32 (1000 + 20 * Z.of_nat k))).
Proof.
  intros k. split; [reflexivity |]. split; [apply rf_arm_gesture_rc_valid |].
  repeat split.
Qed.

(** Scenario C from 1000 ms on: after 25 and after 26 epochs. *)
Lemma gesture_arms_at_epoch_26_witness :
  (exists m',
     update_state_upto sample_ERROR_RC_LOST
       (fun k => rf_arm_gesture (uint32 (1000 + 20 * Z.of_nat k))) 25 mode_fresh
     = Some m'
     /\ _armed m' = false
     /\ time_sticks_have_been_in_arming_position_ms m' = 500
     /\ uint32 (prev_time_ms m') = uint32 (1000 + 20 * 25))
  /\ (exists m',
        update_state_upto sample_ERROR_RC_LOST
          (fun k => rf_arm_gesture (uint32 (1000 + 20 * Z.of_nat k))) 26 mode_fresh
        = Some m'
        /\ _armed m' = true
        /\ time_sticks_have_been_in_arming_position_ms m' = 0
        /\ uint32 (prev_time_ms m') = uint32 (1000 + 20 * 26)).
Proof.
  split.
  - exact (gesture_arms_at_epoch_26 sample_ERROR_RC_LOST 1000 _ mode_fresh
             gesture_arming_input_sample eq_refl eq_refl eq_refl eq_refl 25%nat).
  - exact (gesture_arms_at_epoch_26 sample_ERROR_RC_LOST 1000 _ mode_fresh
             gesture_arming_input_sample eq_refl eq_refl eq_refl eq_refl 26%nat).
Defined.

(** Scenario C by evaluation: disarmed after 25 epochs, armed after 26
    and still after 40. *)
Example gesture_arming_run :
  map (fun n =>
         option_map _armed
           (update_state_upto sample_ERROR_RC_LOST
              (fun k => rf_arm_gesture (uint32 (1000 + 20 * Z.of_nat k))) n mode_fresh))
      [25; 26; 40]%nat
  = [Some false; Some true; Some true].
Proof. vm_compute. reflexivity. Qed.

(** The subtraction [1.0f - 0.1f] gives the float nearest to 0.9. *)
Example one_minus_threshold : F32.sub F32.one F32.c0_1 = F32.c0_9.
Proof. vm_compute. reflexivity. Qed.

(** ** The further properties on concrete runs *)

Lemma rf_switch_rc_valid : forall on calibrate now,
  rc_valid (rf_switch on calibrate now).
Proof.
  intros on calibrate now. split; [reflexivity |]. split.
  - unfold channels_reachable. cbn. lia.
  - intros i _. cbn. lia.
Qed.

Lemma rf_disarm_gesture_rc_valid : forall now, rc_valid (rf_disarm_gesture now).
Proof.
  intros now. split; [reflexivity |]. split.
  - unfold channels_reachable. cbn. lia.
  - intros i _. cbn. lia.
Qed.

Lemma rf_nan_stick_rc_valid : forall now, rc_valid (rf_nan_stick now).
Proof.
  intros now. split; [reflexivity |]. split.
  - unfold channels_reachable. cbn. lia.
  - intros i _. cbn. lia.
Qed.

Lemma Forall_repeat : forall (A : Type) (P : A -> Prop) (x : A) (n : nat),
  P x -> Forall P (repeat x n).
Proof.
  intros A P x n Hx. apply Forall_forall. intros y Hin.
  apply repeat_spec in Hin. now subst y.
Qed.

(** A fresh module arms straight away when nothing forbids it. *)
Lemma arm_only_when_permitted_witness :
  _error_code Mode_new = ERROR_NONE
  /\ (get_param_int (rf_idle 0 false 0) PARAM_CALIBRATE_GYRO_ON_ARM = 0
      \/ (started_gyro_calibration Mode_new = true
          /\ gyro_calibration_complete (rf_idle 0 false 0) = true))
  /\ fst (arm (rf_idle 0 false 0) Mode_new) = true.
Proof.
  exact (arm_only_when_permitted (rf_idle 0 false 0) Mode_new eq_refl eq_refl).
Defined.

(** [disarm] with a calibration pending, then [arm] with the calibration
    complete. *)
Lemma arm_after_abandoned_calibration_witness :
  fst (arm (rf_idle 1 true 0) (disarm mode_cal_pending)) = true
  /\ _armed (snd (arm (rf_idle 1 true 0) (disarm mode_cal_pending))) = true
  /\ calibration_requests (snd (arm (rf_idle 1 true 0) (disarm mode_cal_pending)))
     = calibration_requests mode_cal_pending.
Proof.
  apply (arm_after_abandoned_calibration (rf_idle 1 true 0) mode_cal_pending).
  - reflexivity.
  - cbn. discriminate.
  - reflexivity.
Defined.

(** The link lost and found again under another fault. *)
Lemma check_failsafe_recovery_witness :
  exists m1 m2,
    check_failsafe sample_ERROR_RC_LOST (rf_link_lost 0) mode_other_fault
    = Some (true, m1)
    /\ check_failsafe sample_ERROR_RC_LOST (rf_idle 0 false 20) m1 = Some (false, m2)
    /\ _failsafe_active m1 = true
    /\ _failsafe_active m2 = false
    /\ _error_code m2 = other_faults sample_ERROR_RC_LOST mode_other_fault
    /\ _armed m2 = _armed mode_other_fault
    /\ hd_error (calls m2)
       = Some (if _armed mode_other_fault then led1_on else led1_off).
Proof.
  apply (check_failsafe_recovery sample_ERROR_RC_LOST (rf_link_lost 0)
           (rf_idle 0 false 20) mode_other_fault).
  - reflexivity.
  - apply rf_idle_rc_valid.
Defined.

(** A failsafe cycle from a counter at 7. *)
Lemma blink_counter_bounded_witness :
  1 <= count (failsafe_on (set_error_code sample_ERROR_RC_LOST mode_fault)) <= 26.
Proof.
  exact (blink_counter_bounded sample_ERROR_RC_LOST (rf_link_lost 0) mode_fault true
           (failsafe_on (set_error_code sample_ERROR_RC_LOST mode_fault))
           ltac:(cbn; lia) eq_refl).
Defined.

(** Twenty cycles with the link lost, two with a valid link, seven with a
    channel out of range: one toggle. *)
Lemma blink_counter_survives_recovery_witness :
  exists m',
    check_failsafe_each sample_ERROR_RC_LOST
      (repeat (rf_link_lost 0) 20
       ++ repeat (rf_idle 0 false 0) 2 ++ repeat (rf_bad_channel 0) 7) Mode_new
    = Some m'
    /\ toggles m'
       = (toggles Mode_new
          + (length (repeat (rf_link_lost 0) 20)
             + length (repeat (rf_bad_channel 0) 7) - 1) / 26)%nat.
Proof.
  apply (blink_counter_survives_recovery sample_ERROR_RC_LOST).
  - reflexivity.
  - apply Forall_repeat, rf_link_lost_failsafe_input.
  - apply Forall_repeat, rf_idle_rc_valid.
  - apply Forall_repeat. right. apply rf_bad_channel_channel_failsafe.
Defined.

(** 128 channels configured. *)
Lemma check_failsafe_diverges_witness :
  (forall fuel, rc_channels_loop fuel (rf_128_channels 1020) 0 false = None)
  /\ check_failsafe sample_ERROR_RC_LOST (rf_128_channels 1020) mode_fresh = None
  /\ (20 <= uint32 (clock_millis (rf_128_channels 1020) - prev_time_ms mode_fresh) ->
      update_state sample_ERROR_RC_LOST (rf_128_channels 1020) mode_fresh = None).
Proof.
  apply (check_failsafe_diverges sample_ERROR_RC_LOST (rf_128_channels 1020) mode_fresh).
  - reflexivity.
  - cbn. lia.
Defined.

(** Armed, the arming switch off, the link lost: still armed. *)
Lemma update_state_failsafe_preempts_witness :
  exists m',
    update_state sample_ERROR_RC_LOST (rf_switch_off_link_lost 1020) mode_armed
    = Some (true, m')
    /\ _failsafe_active m' = true
    /\ _armed m' = _armed mode_armed
    /\ started_gyro_calibration m' = started_gyro_calibration mode_armed
    /\ time_sticks_have_been_in_arming_position_ms m'
       = time_sticks_have_been_in_arming_position_ms mode_armed
    /\ (calls m' = calls mode_armed \/ calls m' = led1_toggle :: calls mode_armed).
Proof.
  apply (update_state_failsafe_preempts sample_ERROR_RC_LOST).
  - vm_compute. discriminate.
  - left. reflexivity.
Defined.

(** Armed under a fault, the arming switch off. *)
Lemma switch_off_disarms_witness :
  exists m',
    update_state sample_ERROR_RC_LOST (rf_switch false 0 1020) mode_armed_fault
    = Some (true, m')
    /\ _armed m' = false
    /\ hd_error (calls m') = Some led1_off.
Proof.
  apply (switch_off_disarms sample_ERROR_RC_LOST).
  - vm_compute. discriminate.
  - apply rf_switch_rc_valid.
  - reflexivity.
  - reflexivity.
Defined.

(** Disarmed with only the RC lost error, the arming switch on. *)
Lemma switch_on_arms_witness :
  exists m',
    update_state sample_ERROR_RC_LOST (rf_switch true 0 1020) mode_fault
    = Some (true, m')
    /\ _armed m' = true
    /\ _error_code m' = ERROR_NONE.
Proof.
  apply (switch_on_arms sample_ERROR_RC_LOST).
  - vm_compute. discriminate.
  - apply rf_switch_rc_valid.
  - reflexivity.
  - reflexivity.
  - reflexivity.
  - reflexivity.
Defined.

(** Disarmed with another fault: the arming switch on, then the link
    lost, then the arming switch on again. *)
Lemma update_state_fault_blocks_arming_witness :
  exists rs m',
    update_state_each sample_ERROR_RC_LOST
      [rf_switch true 0 1020; rf_link_lost 1040; rf_switch true 0 1060]
      mode_other_fault
    = Some (rs, m')
    /\ _armed m' = false.
Proof.
  destruct (update_state_each sample_ERROR_RC_LOST
              [rf_switch true 0 1020; rf_link_lost 1040; rf_switch true 0 1060]
              mode_other_fault) as [[rs m'] |] eqn:Hrun.
  - exists rs, m'. split; [reflexivity |].
    apply (update_state_fault_blocks_arming sample_ERROR_RC_LOST
             [rf_switch true 0 1020; rf_link_lost 1040; rf_switch true 0 1060]
             mode_other_fault rs).
    + vm_compute. discriminate.
    + reflexivity.
    + exact Hrun.
  - vm_compute in Hrun. discriminate Hrun.
Defined.

(** The link lost and found again under another fault. *)
Lemma update_state_keeps_other_faults_witness :
  exists rs m',
    update_state_each sample_ERROR_RC_LOST
      [rf_link_lost 1020; rf_idle 0 false 1040] mode_other_fault
    = Some (rs, m')
    /\ other_faults sample_ERROR_RC_LOST m'
       = other_faults sample_ERROR_RC_LOST mode_other_fault.
Proof.
  destruct (update_state_each sample_ERROR_RC_LOST
              [rf_link_lost 1020; rf_idle 0 false 1040] mode_other_fault)
    as [[rs m'] |] eqn:Hrun.
  - exists rs, m'. split; [reflexivity |].
    exact (update_state_keeps_other_faults sample_ERROR_RC_LOST
             [rf_link_lost 1020; rf_idle 0 false 1040] mode_other_fault rs m' Hrun).
  - vm_compute in Hrun. discriminate Hrun.
Defined.

(** The arming gesture held for 490 ms and one epoch more. *)
Lemma gesture_arms_only_after_hold_witness :
  exists m',
    update_state sample_ERROR_RC_LOST (rf_arm_gesture 1020) mode_held_490
    = Some (true, m')
    /\ _armed m' = true
    /\ sticks_in_arming_position (rf_arm_gesture 1020) = true
    /\ 500 < uint32 (time_sticks_have_been_in_arming_position_ms mode_held_490
                     + uint32 (clock_millis (rf_arm_gesture 1020)
                               - prev_time_ms mode_held_490))
    /\ time_sticks_have_been_in_arming_position_ms m' = 0.
Proof.
  eexists. split; [reflexivity |]. split; [reflexivity |].
  apply (gesture_arms_only_after_hold sample_ERROR_RC_LOST
           (rf_arm_gesture 1020) mode_held_490 true); reflexivity.
Defined.

(** One call 600 ms after the last processed one, the sticks in the
    arming position. *)
Lemma gesture_arms_when_held_witness :
  exists m',
    update_state sample_ERROR_RC_LOST (rf_arm_gesture 1600) mode_fresh
    = Some (true, m')
    /\ _armed m' = true
    /\ time_sticks_have_been_in_arming_position_ms m' = 0
    /\ hd_error (calls m') = Some led1_on.
Proof.
  apply (gesture_arms_when_held sample_ERROR_RC_LOST).
  - vm_compute. discriminate.
  - apply rf_arm_gesture_rc_valid.
  - reflexivity.
  - reflexivity.
  - reflexivity.
  - reflexivity.
  - vm_compute. reflexivity.
  - vm_compute. reflexivity.
Defined.

(** The first epoch of a hold. *)
Lemma gesture_hold_accumulates_witness :
  exists m',
    update_state sample_ERROR_RC_LOST (rf_arm_gesture 1020) mode_fresh
    = Some (true, m')
    /\ _armed m' = false
    /\ time_sticks_have_been_in_arming_position_ms m'
       = uint32 (time_sticks_have_been_in_arming_position_ms mode_fresh
                 + uint32 (clock_millis (rf_arm_gesture 1020)
                           - prev_time_ms mode_fresh))
    /\ calls m' = led1_off :: calls mode_fresh.
Proof.
  apply (gesture_hold_accumulates sample_ERROR_RC_LOST).
  - vm_compute. discriminate.
  - apply rf_arm_gesture_rc_valid.
  - reflexivity.
  - reflexivity.
  - vm_compute. reflexivity.
  - vm_compute. discriminate.
Defined.

(** Armed under a fault, the disarming gesture held for 490 ms and one
    epoch more. *)
Lemma gesture_disarm_ignores_faults_witness :
  exists m',
    update_state sample_ERROR_RC_LOST (rf_disarm_gesture 1020) mode_armed_fault
    = Some (true, m')
    /\ _armed m' = false
    /\ time_sticks_have_been_in_arming_position_ms m' = 0
    /\ hd_error (calls m') = Some led1_off.
Proof.
  apply (gesture_disarm_ignores_faults sample_ERROR_RC_LOST).
  - vm_compute. discriminate.
  - apply rf_disarm_gesture_rc_valid.
  - reflexivity.
  - reflexivity.
  - vm_compute. reflexivity.
  - vm_compute. reflexivity.
Defined.

(** Last processed 5 ms before the clock wraps, called 25 ms later. *)
Lemma rate_limit_wraparound_witness :
  uint32 (clock_millis (rf_idle 0 false 20) - prev_time_ms mode_before_wrap) = 25
  /\ (25 < 20 ->
      update_state sample_ERROR_RC_LOST (rf_idle 0 false 20) mode_before_wrap
      = Some (false, mode_before_wrap))
  /\ (20 <= 25 ->
      forall r m',
        update_state sample_ERROR_RC_LOST (rf_idle 0 false 20) mode_before_wrap
        = Some (r, m') ->
        r = true /\ prev_time_ms m' = clock_millis (rf_idle 0 false 20)).
Proof.
  apply (rate_limit_wraparound sample_ERROR_RC_LOST (rf_idle 0 false 20)
           mode_before_wrap 25).
  - cbn. lia.
  - lia.
  - vm_compute. reflexivity.
Defined.

(** Three calls within 19 ms of the last processed one. *)
Lemma update_state_burst_witness :
  update_state_each sample_ERROR_RC_LOST
    [rf_arm_gesture 1005; rf_arm_gesture 1010; rf_arm_gesture 1019] mode_fresh
  = Some ([false; false; false], mode_fresh).
Proof.
  apply (update_state_burst sample_ERROR_RC_LOST
           [rf_arm_gesture 1005; rf_arm_gesture 1010; rf_arm_gesture 1019] mode_fresh).
  repeat constructor.
Defined.

(** The arming switch on from a fresh state. *)
Lemma led1_shows_armed_witness :
  exists m',
    update_state sample_ERROR_RC_LOST (rf_switch true 0 1020) mode_fresh
    = Some (true, m')
    /\ forall led : bool, led1_after led (calls m') = _armed m'.
Proof.
  apply (led1_shows_armed sample_ERROR_RC_LOST).
  - vm_compute. discriminate.
  - apply rf_switch_rc_valid.
Defined.

(** The yaw stick reads NaN after a hold of 490 ms. *)
Lemma gesture_nan_resets_witness :
  exists m',
    update_state sample_ERROR_RC_LOST (rf_nan_stick 1020) mode_held_490
    = Some (true, m')
    /\ time_sticks_have_been_in_arming_position_ms m' = 0
    /\ _armed m' = _armed mode_held_490.
Proof.
  apply (gesture_nan_resets sample_ERROR_RC_LOST).
  - vm_compute. discriminate.
  - apply rf_nan_stick_rc_valid.
  - reflexivity.
  - right. left. reflexivity.
Defined.
